(** * Zenith wallet: the ledger and settlement engine

    A shallow embedding of the money paths of the backend, by source file
    (paths under [src/backend/src]):

    - [models/Transaction.js], the transaction schema (lines 233-296):
      [process], [retry];
    - [models/Transaction.js], the expense schema (lines 486-550):
      [calculateSplits], [validateSplits], the [pre('save')] hook;
    - [models/Group.js] (lines 203-246): [calculateBalances];
    - [routes/payments.js], the payments router (lines 53-322):
      [POST /send-money], [POST /settle-expense];
    - [routes/payments.js], the groups router (lines 1577-1701):
      [GET /:groupId/balances] with its settlement suggestions,
      [POST /:groupId/settle];
    - [routes/transactions.js] (lines 111-373): [POST /],
      [POST /:transactionId/retry], [POST /:transactionId/cancel];
    - [middleware/authorize.js] (lines 58-99): [groupMemberAuth];
    - [routes/payments.js], the payments router (lines 327-456):
      [POST /settle-group/:groupId];
    - [routes/payments.js], the groups router (lines 1372-1418):
      [POST /:groupId/leave].

    Every amount of the backend is a JavaScript [Number], that is an IEEE-754
    binary64 value; it is modelled by Rocq's primitive [float], which is the
    same format with the same rounding.  Amounts are in currency units, the
    cent being [0.01] (schema: [min: [0.01, ...]]; [validateSplits]: "Allow
    1 cent tolerance for rounding").  The schemas' enumerations are inductive
    types, identifiers are strings, dates are integers, and the two retry
    counters, which start at 0 and 3 and only ever grow by one, are
    integers. *)

From Stdlib Require Import ZArith List String Bool PrimFloat FloatOps FloatAxioms SpecFloat Lia.
From stdpp Require Import base option list gmap strings.
Import ListNotations.

Set Warnings "-inexact-float".

(* ===================================================================== *)
(** * Part I.  The program                                                *)
(* ===================================================================== *)

(** ** JavaScript numbers *)

Module Num.
Local Open Scope float_scope.

Definition number := float.

(** [array.length] as a Number: exact below 2^53. *)
Fixpoint of_nat (n : nat) : number :=
  match n with
  | O => 0
  | S k => of_nat k + 1
  end.

(** The one-cent threshold [0.01] the code compares against. *)
Definition cent : number := 0.01.

(** [a > b] of JavaScript (false as soon as one side is NaN). *)
Definition gtb (a b : number) : bool := b <? a.

(** [Math.min(a, b)]: NaN if either is, and [-0] below [+0]. *)
Definition Math_min (a b : number) : number :=
  if is_nan a || is_nan b then nan
  else if a <? b then a
  else if b <? a then b
  else if get_sign a then a else b.

Definition Math_abs (a : number) : number := abs a.

(** Truthiness of a Number: [0], [-0] and [NaN] are falsy. *)
Definition truthy (a : number) : bool := negb (is_zero a || is_nan a).

(** [array.reduce((sum, x) => sum + f(x), 0)]. *)
Definition sum_by {A} (f : A -> number) (l : list A) : number :=
  fold_left (fun sum x => sum + f x) l 0.

(** express-validator's [isFloat({ min: 0.01 })] on a Number of the body:
    a finite decimal not below the minimum. *)
Definition isFloat_min_cent (a : number) : bool :=
  negb (is_nan a) && negb (is_infinity a) && (cent <=? a).
End Num.

Abbreviation number := Num.number.
Bind Scope float_scope with Num.number.

(** ** What a call gives back: a value, or a thrown [Error(message)] *)

Inductive outcome (A : Type) : Type :=
| Returned (a : A)
| Thrown (message : string).
Arguments Returned {A} a.
Arguments Thrown {A} message.

(** ** Expenses (the expense schema of [models/Transaction.js]) *)

Inductive SplitType := equal | percentage | custom | shares.

Module Participant.
Record t := mk {
  user : string;
  amount : number;
  percentage : number;
  shares : number;
  settled : bool;
  settledAt : option Z
}.

Definition with_amount (a : number) (p : t) : t :=
  mk (user p) a (percentage p) (shares p) (settled p) (settledAt p).
Definition with_percentage (pc : number) (p : t) : t :=
  mk (user p) (amount p) pc (shares p) (settled p) (settledAt p).
Definition with_settled (now : Z) (p : t) : t :=
  mk (user p) (amount p) (percentage p) (shares p) true (Some now).
End Participant.

(** One entry of [expense.settlement.settlements] and of [group.settlements]. *)
Module Settlement.
Record t := mk {
  from : string;
  to : string;
  amount : number;
  settledAt : Z
}.
End Settlement.

Inductive ExpenseStatus := exp_pending | exp_approved | exp_rejected | exp_settled.

Module Expense.
Local Open Scope float_scope.

Record t := mk {
  title : string;
  amount : number;
  paidBy : string;
  group : option string;
  splitType : SplitType;
  participants : list Participant.t;
  status : ExpenseStatus;
  isSettled : bool;
  settlement_settledAt : option Z;
  settlements : list Settlement.t
}.

Definition with_participants (ps : list Participant.t) (e : t) : t :=
  mk (title e) (amount e) (paidBy e) (group e) (splitType e) ps (status e)
     (isSettled e) (settlement_settledAt e) (settlements e).
Definition with_settlements (ss : list Settlement.t) (e : t) : t :=
  mk (title e) (amount e) (paidBy e) (group e) (splitType e) (participants e)
     (status e) (isSettled e) (settlement_settledAt e) ss.
Definition mark_settled (now : Z) (e : t) : t :=
  mk (title e) (amount e) (paidBy e) (group e) (splitType e) (participants e)
     exp_settled true (Some now) (settlements e).

(** [expenseSchema.methods.calculateSplits].  The schema's enum is the type
    [SplitType], so the [default: throw] arm of the switch has no input. *)
Definition calculateSplits (e : t) : t :=
  let totalAmount := amount e in
  let participantCount := Num.of_nat (length (participants e)) in
  match splitType e with
  | equal =>
      let equalAmount := totalAmount / participantCount in
      with_participants
        (map (fun p => Participant.with_percentage (100 / participantCount)
                         (Participant.with_amount equalAmount p))
             (participants e)) e
  | percentage =>
      with_participants
        (map (fun p => Participant.with_amount
                         ((totalAmount * Participant.percentage p) / 100) p)
             (participants e)) e
  | shares =>
      let totalShares := Num.sum_by Participant.shares (participants e) in
      with_participants
        (map (fun p => Participant.with_percentage
                         ((Participant.shares p / totalShares) * 100)
                         (Participant.with_amount
                            ((totalAmount * Participant.shares p) / totalShares) p))
             (participants e)) e
  | custom =>
      with_participants
        (map (fun p => Participant.with_percentage
                         ((Participant.amount p / totalAmount) * 100) p)
             (participants e)) e
  end.

Definition totalSplitAmount (e : t) : number :=
  Num.sum_by Participant.amount (participants e).

Definition tolerance : number := 0.01.

(** [expenseSchema.methods.validateSplits]. *)
Definition validateSplits (e : t) : outcome bool :=
  if Num.gtb (Num.Math_abs (totalSplitAmount e - amount e)) tolerance
  then Thrown "Split amounts do not equal total expense amount"
  else Returned true.

(** [expenseSchema.pre('save')]: [modified] is
    [isModified('amount') || isModified('participants') || isModified('splitType')];
    [Thrown] is [next(error)], the save is refused. *)
Definition pre_save (modified : bool) (e : t) : outcome t :=
  if modified then
    let e' := calculateSplits e in
    match validateSplits e' with
    | Thrown msg => Thrown msg
    | Returned _ => Returned e'
    end
  else Returned e.
End Expense.

(** ** Groups ([models/Group.js]) *)

Inductive MemberStatus := active | inactive | has_left.

Module Member.
Record t := mk {
  user : string;
  balance : number;
  totalPaid : number;
  totalOwed : number;
  status : MemberStatus
}.

Definition with_balance (b : number) (m : t) : t :=
  mk (user m) b (totalPaid m) (totalOwed m) (status m).
Definition with_totalPaid (x : number) (m : t) : t :=
  mk (user m) (balance m) x (totalOwed m) (status m).
Definition with_totalOwed (x : number) (m : t) : t :=
  mk (user m) (balance m) (totalPaid m) x (status m).
End Member.

(** [array.find(pred)] followed by a mutation of the element found: the first
    element that satisfies [pred] is updated in place, none if there is none. *)
Fixpoint update_first {A} (pred : A -> bool) (f : A -> A) (l : list A) : list A :=
  match l with
  | [] => []
  | x :: l' => if pred x then f x :: l' else x :: update_first pred f l'
  end.

(** [array.find(pred)] as the position of the element found. *)
Fixpoint find_index {A} (pred : A -> bool) (l : list A) : option nat :=
  match l with
  | [] => None
  | x :: l' => if pred x then Some O else S <$> find_index pred l'
  end.

Module Group.
Local Open Scope float_scope.

Record t := mk {
  name : string;
  owner : string;
  members : list Member.t;
  totalExpenses : number;
  settlements : list Settlement.t;
  lastActivity : Z
}.

Definition with_members (ms : list Member.t) (g : t) : t :=
  mk (name g) (owner g) ms (totalExpenses g) (settlements g) (lastActivity g).

Section CalculateBalances.
(** [participantId.toString()] of line 229: the elements of
    [expense.participants] are sub-documents, and the string Mongoose
    makes of one is not in the sources; it is a parameter here. *)
Variable participant_toString : Participant.t -> string.

Definition reset (m : Member.t) : Member.t :=
  Member.mk (Member.user m) 0 0 0 (Member.status m).

(** The body of [expenses.forEach(expense => ...)]. *)
Definition replay_expense (ms : list Member.t) (e : Expense.t) : list Member.t :=
  let ms1 :=
    update_first (fun m => String.eqb (Member.user m) (Expense.paidBy e))
      (fun m => Member.with_totalPaid (Member.totalPaid m + Expense.amount e) m) ms in
  let splitAmount :=
    Expense.amount e / Num.of_nat (length (Expense.participants e)) in
  fold_left
    (fun ms participantId =>
       update_first
         (fun m => String.eqb (Member.user m) (participant_toString participantId))
         (fun m => Member.with_totalOwed (Member.totalOwed m + splitAmount) m) ms)
    (Expense.participants e) ms1.

(** [groupSchema.methods.calculateBalances], on the expenses
    [Expense.find({ group: this._id })] returned; [populate] is taken to
    resolve every member's user, so that nothing in the [try] block throws. *)
Definition calculateBalances (expenses : list Expense.t) (g : t) : t :=
  let ms0 := map reset (members g) in
  let ms1 := fold_left replay_expense expenses ms0 in
  with_members
    (map (fun m => Member.with_balance (Member.totalPaid m - Member.totalOwed m) m) ms1)
    g.
End CalculateBalances.

(** *** [POST /api/groups/:groupId/settle] *)

Record settle_body := {
  toUserId : option string;
  settle_amount : option number;
  note : option string
}.

Inductive settle_response :=
| settle_invalid_data          (* 400 'Invalid settlement data' *)
| settle_not_members           (* 400 'Both users must be group members' *)
| settle_recorded (s : Settlement.t).  (* 200 'Settlement recorded successfully' *)

(** The handler after [groupMemberAuth] has loaded [req.group]; [caller] is
    [req.user._id], [now] the clock.  The group returned is the one saved. *)
Definition settle (caller : string) (now : Z) (body : settle_body) (g : t)
  : t * settle_response :=
  match toUserId body, settle_amount body with
  | Some toUser, Some amount =>
      if negb (Num.truthy amount) || (amount <=? 0) || String.eqb toUser ""
      then (g, settle_invalid_data)
      else
        match find_index (fun m => String.eqb (Member.user m) caller) (members g),
              find_index (fun m => String.eqb (Member.user m) toUser) (members g) with
        | Some fromMember, Some toMember =>
            let s := Settlement.mk caller toUser amount now in
            let ms1 := alter (fun m => Member.with_balance (Member.balance m + amount) m)
                             fromMember (members g) in
            let ms2 := alter (fun m => Member.with_balance (Member.balance m - amount) m)
                             toMember ms1 in
            (mk (name g) (owner g) ms2 (totalExpenses g) (settlements g ++ [s]) now,
             settle_recorded s)
        | _, _ => (g, settle_not_members)
        end
  | _, _ => (g, settle_invalid_data)
  end.

(** *** [GET /api/groups/:groupId/balances]: the settlement suggestions *)

Record suggestion := {
  sg_from : string;
  sg_to : string;
  sg_amount : number
}.

(** [array.sort(cmp)]: a stable sort; [x] stays in front of [y] unless
    [cmp(x, y) > 0]. *)
Fixpoint sort_insert {A} (cmp : A -> A -> number) (x : A) (l : list A) : list A :=
  match l with
  | [] => [x]
  | y :: l' => if 0 <? cmp x y then y :: sort_insert cmp x l' else x :: l
  end.
Definition sort {A} (cmp : A -> A -> number) (l : list A) : list A :=
  foldr (sort_insert cmp) [] l.

(** The arrays [creditors] and [debtors] hold references to the member
    objects of [group.members]: a reference is the member's position. *)
Definition balance_at (ms : list Member.t) (i : nat) : number :=
  from_option Member.balance 0 (ms !! i).
Definition user_at (ms : list Member.t) (i : nat) : string :=
  from_option Member.user "" (ms !! i).

Definition membersWithBalance (ms : list Member.t) : list nat :=
  filter (fun i => Num.gtb (Num.Math_abs (balance_at ms i)) 0.01 = true)
         (seq 0 (length ms)).
Definition creditors (ms : list Member.t) : list nat :=
  sort (fun a b => balance_at ms b - balance_at ms a)
       (filter (fun i => Num.gtb (balance_at ms i) 0 = true) (membersWithBalance ms)).
Definition debtors (ms : list Member.t) : list nat :=
  sort (fun a b => balance_at ms a - balance_at ms b)
       (filter (fun i => (balance_at ms i <? 0) = true) (membersWithBalance ms)).

(** One turn of the [while] loop on the current creditor and debtor: the
    suggestion pushed, the members after the two assignments, and whether
    [i] and [j] advance. *)
Definition sweep_step (creditor debtor : nat) (ms : list Member.t)
  : suggestion * list Member.t * bool * bool :=
  let settlementAmount :=
    Num.Math_min (balance_at ms creditor) (Num.Math_abs (balance_at ms debtor)) in
  let ms1 := alter (fun m => Member.with_balance (Member.balance m - settlementAmount) m)
                   creditor ms in
  let ms2 := alter (fun m => Member.with_balance (Member.balance m + settlementAmount) m)
                   debtor ms1 in
  ({| sg_from := user_at ms debtor; sg_to := user_at ms creditor;
      sg_amount := settlementAmount |},
   ms2,
   Num.Math_abs (balance_at ms2 creditor) <? 0.01,
   Num.Math_abs (balance_at ms2 debtor) <? 0.01).

(** The loop [while (i < creditors.length && j < debtors.length)]; the two
    lists are what is left from [i] and from [j].  [None]: the turns
    allowed did not reach the end of either list. *)
Fixpoint sweep (turns : nat) (cs ds : list nat) (ms : list Member.t)
    (settlements : list suggestion) : option (list suggestion * list Member.t) :=
  match cs, ds with
  | creditor :: cs', debtor :: ds' =>
      match turns with
      | O => None
      | S turns' =>
          let '(s, ms', next_i, next_j) := sweep_step creditor debtor ms in
          sweep turns' (if next_i then cs' else cs) (if next_j then ds' else ds)
                ms' (settlements ++ [s])
      end
  | _, _ => Some (settlements, ms)
  end.

(** The suggestions of the route and the members as the response lists them
    (the loop has written to their balances). *)
Definition suggestedSettlements (turns : nat) (ms : list Member.t)
  : option (list suggestion * list Member.t) :=
  sweep turns (creditors ms) (debtors ms) ms [].
End Group.

(** ** Users and transactions ([models/User.js], [models/Transaction.js]) *)

Module User.
Record t := mk {
  name : string;
  walletBalance : number
}.
Definition with_walletBalance (b : number) (u : t) : t := mk (name u) b.
End User.

Inductive TxType := income | expense | transfer | settlement | refund.
Inductive TxStatus := pending | processing | completed | failed | cancelled | refunded.
Inductive PaymentMethod := wallet | bank_transfer | upi | credit_card | debit_card | cash.

Module Transaction.
Record t := mk {
  _id : string;
  type : TxType;
  amount : number;
  from_user : string;
  from_balanceBefore : option number;
  from_balanceAfter : option number;
  to_user : option string;
  to_balanceBefore : number;
  to_balanceAfter : number;
  relatedExpense : option string;
  relatedGroup : option string;
  paymentMethod : PaymentMethod;
  status : TxStatus;
  processedAt : option Z;
  failureReason : option string;
  retryCount : Z;
  maxRetries : Z
}.

Definition with_status (s : TxStatus) (x : t) : t :=
  mk (_id x) (type x) (amount x) (from_user x) (from_balanceBefore x)
     (from_balanceAfter x) (to_user x) (to_balanceBefore x) (to_balanceAfter x)
     (relatedExpense x) (relatedGroup x) (paymentMethod x) s (processedAt x)
     (failureReason x) (retryCount x) (maxRetries x).

(** [this.status = 'completed'; this.processedAt = new Date()]. *)
Definition complete (now : Z) (x : t) : t :=
  mk (_id x) (type x) (amount x) (from_user x) (from_balanceBefore x)
     (from_balanceAfter x) (to_user x) (to_balanceBefore x) (to_balanceAfter x)
     (relatedExpense x) (relatedGroup x) (paymentMethod x) completed (Some now)
     (failureReason x) (retryCount x) (maxRetries x).

(** [this.status = 'failed'; this.failureReason = error.message;
    this.retryCount += 1]. *)
Definition fail (message : string) (x : t) : t :=
  mk (_id x) (type x) (amount x) (from_user x) (from_balanceBefore x)
     (from_balanceAfter x) (to_user x) (to_balanceBefore x) (to_balanceAfter x)
     (relatedExpense x) (relatedGroup x) (paymentMethod x) failed (processedAt x)
     (Some message) (retryCount x + 1)%Z (maxRetries x).
End Transaction.

(** ** The store

    The collections the handlers read and write.  A read gives what the store
    holds.  Every awaited write ([save], [findByIdAndUpdate]) may throw, for
    reasons that are Mongoose's and the database's (a schema validator that
    rejects the document, a conflict, a lost connection): the store carries
    the fate of the writes to come, [Some message] for one that throws
    [Error(message)] and changes nothing, [None] (or no entry) for one that
    goes through. *)

Module Db.
Record t := mk {
  users : gmap string User.t;
  transactions : gmap string Transaction.t;
  expenses : gmap string Expense.t;
  groups : gmap string Group.t;
  faults : list (option string)
}.

Definition with_users (us : gmap string User.t) (db : t) : t :=
  mk us (transactions db) (expenses db) (groups db) (faults db).
Definition with_transactions (ts : gmap string Transaction.t) (db : t) : t :=
  mk (users db) ts (expenses db) (groups db) (faults db).
Definition with_expenses (es : gmap string Expense.t) (db : t) : t :=
  mk (users db) (transactions db) es (groups db) (faults db).
Definition with_groups (gs : gmap string Group.t) (db : t) : t :=
  mk (users db) (transactions db) (expenses db) gs (faults db).
Definition with_faults (fs : list (option string)) (db : t) : t :=
  mk (users db) (transactions db) (expenses db) (groups db) fs.

(** An awaited write. *)
Definition write (f : t -> t) (db : t) : t * outcome unit :=
  match faults db with
  | Some message :: fs => (with_faults fs db, Thrown message)
  | None :: fs => (f (with_faults fs db), Returned tt)
  | [] => (f db, Returned tt)
  end.

(** Which of the writes to come is the first to throw (counted from 0). *)
Fixpoint first_fault (fs : list (option string)) : option nat :=
  match fs with
  | [] => None
  | Some _ :: _ => Some O
  | None :: fs' => S <$> first_fault fs'
  end.

(** [transaction.save()]. *)
Definition save_transaction (x : Transaction.t) : t -> t * outcome unit :=
  write (fun db => with_transactions (<[Transaction._id x := x]> (transactions db)) db).

(** [User.findByIdAndUpdate(id, { $inc: { walletBalance: delta } })]; no
    user of that id, no change. *)
Definition inc (id : string) (delta : number) (us : gmap string User.t)
  : gmap string User.t :=
  alter (fun u => User.with_walletBalance (PrimFloat.add (User.walletBalance u) delta) u)
        id us.
Definition inc_walletBalance (id : string) (delta : number) : t -> t * outcome unit :=
  write (fun db => with_users (inc id delta (users db)) db).

(** [group.save()]. *)
Definition save_group (id : string) (g : Group.t) : t -> t * outcome unit :=
  write (fun db => with_groups (<[id := g]> (groups db)) db).

(** [Expense.find({ group: id })], in the order the store lists them. *)
Definition expenses_of_group (id : string) (db : t) : list Expense.t :=
  filter (fun e => Expense.group e = Some id) (snd <$> map_to_list (expenses db)).
End Db.

(** The chain of updates under "Update balances" in [process]. *)
Definition update_balances (this : Transaction.t) (db : Db.t) : Db.t * outcome unit :=
  match Transaction.type this, Transaction.to_user this with
  | transfer, Some to_user =>
      match Db.inc_walletBalance (Transaction.from_user this)
              (PrimFloat.opp (Transaction.amount this)) db with
      | (db1, Returned _) =>
          Db.inc_walletBalance to_user (Transaction.amount this) db1
      | (db1, Thrown message) => (db1, Thrown message)
      end
  | expense, _ =>
      Db.inc_walletBalance (Transaction.from_user this)
        (PrimFloat.opp (Transaction.amount this)) db
  | income, _ =>
      Db.inc_walletBalance (Transaction.from_user this) (Transaction.amount this) db
  | _, _ => (db, Returned tt)
  end.

(** The [catch (error)] block of [process]. *)
Definition process_catch (message : string) (this : Transaction.t) (db : Db.t)
  : Db.t * Transaction.t * outcome unit :=
  let this' := Transaction.fail message this in
  match Db.save_transaction this' db with
  | (db', Returned _) => (db', this', Thrown message)
  | (db', Thrown message') => (db', this', Thrown message')
  end.

(** [transactionSchema.methods.process], on the receiver [this] and the store.
    It gives back the store, [this] as the method left it, and whether it
    returned or threw.  The simulated delay has no effect on either. *)
Definition process (now : Z) (this : Transaction.t) (db : Db.t)
  : Db.t * Transaction.t * outcome unit :=
  let this1 := Transaction.with_status processing this in
  match Db.save_transaction this1 db with
  | (db1, Thrown message) => process_catch message this1 db1
  | (db1, Returned _) =>
      match update_balances this1 db1 with
      | (db2, Thrown message) => process_catch message this1 db2
      | (db2, Returned _) =>
          let this2 := Transaction.complete now this1 in
          match Db.save_transaction this2 db2 with
          | (db3, Thrown message) => process_catch message this2 db3
          | (db3, Returned _) => (db3, this2, Returned tt)
          end
      end
  end.

(** [transactionSchema.methods.retry]. *)
Definition retry (now : Z) (this : Transaction.t) (db : Db.t)
  : Db.t * Transaction.t * outcome unit :=
  if (Transaction.maxRetries this <=? Transaction.retryCount this)%Z
  then (db, this, Thrown "Maximum retry limit reached")
  else
    match Transaction.status this with
    | failed => process now this db
    | _ => (db, this, Thrown "Only failed transactions can be retried")
    end.

(** ** The route handlers

    [caller] is [req.user._id], as the [auth] middleware resolved it; [newId]
    is the [_id] a [new Transaction(...)] receives; [now] is the clock.  A
    handler gives back the store and the response it sent. *)

Record response := mkResponse {
  code : nat;
  message : string
}.

Module Routes.
Local Open Scope float_scope.

(** The response of the [validate] middleware to a rejected body. *)
Definition validation_failed : response :=
  mkResponse 400 "Please check your input and correct the following errors:".

(** *** [POST /api/payments/send-money] *)

Record send_money_body := {
  recipientId : string;
  sm_amount : number
}.

Definition send_money (caller newId : string) (now : Z) (body : send_money_body)
    (db : Db.t) : Db.t * response :=
  let amount := sm_amount body in
  if negb (Num.isFloat_min_cent amount) then (db, validation_failed) else
  match Db.users db !! recipientId body with
  | None => (db, mkResponse 404 "Recipient not found")
  | Some recipient =>
      if String.eqb (recipientId body) caller
      then (db, mkResponse 400 "Cannot send money to yourself")
      else
        match Db.users db !! caller with
        | None => (db, mkResponse 500 "Failed to send money")
        | Some sender =>
            if User.walletBalance sender <? amount
            then (db, mkResponse 400 "Insufficient wallet balance")
            else
              let transaction :=
                Transaction.mk newId transfer amount caller
                  (Some (User.walletBalance sender))
                  (Some (User.walletBalance sender - amount))
                  (Some (recipientId body))
                  (User.walletBalance recipient)
                  (User.walletBalance recipient + amount)
                  None None wallet pending None None 0%Z 3%Z in
              match Db.save_transaction transaction db with
              | (db1, Thrown _) => (db1, mkResponse 500 "Failed to send money")
              | (db1, Returned _) =>
                  match process now transaction db1 with
                  | (db2, _, Returned _) => (db2, mkResponse 201 "Money sent successfully")
                  | (db2, _, Thrown _) => (db2, mkResponse 400 "Payment processing failed")
                  end
              end
        end
  end.

(** *** [POST /api/transactions] *)

Record create_body := {
  cb_type : TxType;
  cb_amount : number;
  cb_to : option (option string);          (* [to], and [to.user] in it *)
  cb_paymentMethod : option PaymentMethod;
  cb_relatedExpense : option string;
  cb_relatedGroup : option string
}.

Definition outgoing (ty : TxType) : bool :=
  match ty with expense | transfer => true | _ => false end.

Definition create_failed : response := mkResponse 500 "Failed to create transaction".

Definition create_transaction (caller newId : string) (now : Z) (body : create_body)
    (db : Db.t) : Db.t * response :=
  let type := cb_type body in
  let amount := cb_amount body in
  if negb (Num.isFloat_min_cent amount) then (db, validation_failed) else
  match Db.users db !! caller with
  | None => (db, create_failed)
  | Some fromUser =>
      if outgoing type && (User.walletBalance fromUser <? amount)
      then (db, mkResponse 400 "Insufficient wallet balance")
      else
        (* [toUser]: [inl] the recipient looked up, [inr] the response sent *)
        let toUser : option User.t + response :=
          match type, cb_to body with
          | transfer, None => inr create_failed        (* [to.user] of undefined *)
          | transfer, Some (Some id) =>
              match Db.users db !! id with
              | Some u => inl (Some u)
              | None => inr (mkResponse 404 "Recipient not found")
              end
          | _, _ => inl None
          end in
        match toUser with
        | inr r => (db, r)
        | inl toUser =>
            let before := User.walletBalance fromUser in
            let transaction :=
              Transaction.mk newId type amount caller
                (Some before)
                (Some (match type with income => before + amount | _ => before - amount end))
                (match cb_to body with Some to_user => to_user | None => None end)
                (match cb_to body, toUser with
                 | Some _, Some u => User.walletBalance u | _, _ => 0 end)
                (match cb_to body, toUser with
                 | Some _, Some u => User.walletBalance u + amount | _, _ => 0 end)
                (cb_relatedExpense body) (cb_relatedGroup body)
                (default wallet (cb_paymentMethod body))
                pending None None 0%Z 3%Z in
            match Db.save_transaction transaction db with
            | (db1, Thrown _) => (db1, create_failed)
            | (db1, Returned _) =>
                (* a processing failure is logged; the transaction stays failed *)
                let '(db2, _, _) := process now transaction db1 in
                (db2, mkResponse 201 "Transaction created successfully")
            end
        end
  end.

(** *** [POST /api/transactions/:transactionId/retry] *)

Definition retry_transaction (caller transactionId : string) (now : Z)
    (db : Db.t) : Db.t * response :=
  match Db.transactions db !! transactionId with
  | None => (db, mkResponse 404 "Transaction not found")
  | Some transaction =>
      if negb (String.eqb (Transaction.from_user transaction) caller)
      then (db, mkResponse 403 "Only transaction creator can retry")
      else
        match Transaction.status transaction with
        | failed =>
            if (Transaction.maxRetries transaction <=? Transaction.retryCount transaction)%Z
            then (db, mkResponse 400 "Maximum retry limit reached")
            else
              match retry now transaction db with
              | (db1, _, Returned _) => (db1, mkResponse 200 "Transaction retried successfully")
              | (db1, _, Thrown _) => (db1, mkResponse 400 "Transaction retry failed")
              end
        | _ => (db, mkResponse 400 "Only failed transactions can be retried")
        end
  end.

(** *** [POST /api/transactions/:transactionId/cancel] *)

Definition cancel_transaction (caller transactionId : string) (db : Db.t)
    : Db.t * response :=
  match Db.transactions db !! transactionId with
  | None => (db, mkResponse 404 "Transaction not found")
  | Some transaction =>
      if negb (String.eqb (Transaction.from_user transaction) caller)
      then (db, mkResponse 403 "Only transaction creator can cancel")
      else
        match Transaction.status transaction with
        | pending | processing =>
            match Db.save_transaction (Transaction.with_status cancelled transaction) db with
            | (db1, Returned _) => (db1, mkResponse 200 "Transaction cancelled successfully")
            | (db1, Thrown _) => (db1, mkResponse 500 "Failed to cancel transaction")
            end
        | _ => (db, mkResponse 400 "Only pending or processing transactions can be cancelled")
        end
  end.

(** *** [POST /api/payments/settle-expense]

    [populate] is taken to resolve the users the expense names; the group
    it names may be gone ([expense.group] is then [null]). *)

Record settle_expense_body := {
  expenseId : string;
  se_amount : option number;
  se_paymentMethod : option PaymentMethod
}.

Definition settle_failed : response := mkResponse 500 "Failed to settle expense".
Definition settle_processing_failed : response :=
  mkResponse 400 "Settlement processing failed".

Definition is_wallet (m : PaymentMethod) : bool :=
  match m with wallet => true | _ => false end.

(** [amount || userParticipation.amount]. *)
Definition settlementAmount_of (amount : option number) (share : number) : number :=
  match amount with
  | Some a => if Num.truthy a then a else share
  | None => share
  end.

(** The statements of the [try] block that follow [transaction.process()],
    up to [expense.save()]: the expense as the handler leaves it, and
    whether [participants] was modified. *)
Definition record_settlement (caller : string) (now : Z) (k : nat)
    (settlementAmount share : number) (expense : Expense.t) : Expense.t * bool :=
  let full := settlementAmount =? share in
  let participants :=
    if full then alter (Participant.with_settled now) k (Expense.participants expense)
    else Expense.participants expense in
  let expense1 :=
    Expense.with_settlements
      (Expense.settlements expense
         ++ [Settlement.mk caller (Expense.paidBy expense) settlementAmount now])
      (Expense.with_participants participants expense) in
  let allSettled :=
    forallb (fun p => Participant.settled p
                      || String.eqb (Participant.user p) (Expense.paidBy expense))
            participants in
  (if allSettled then Expense.mark_settled now expense1 else expense1, full).

(** [expense.save()]: the [pre('save')] hook, then the write. *)
Definition save_expense (id : string) (modified : bool) (expense : Expense.t)
    (db : Db.t) : Db.t * outcome unit :=
  match Expense.pre_save modified expense with
  | Thrown message => (db, Thrown message)
  | Returned expense' =>
      Db.write (fun db => Db.with_expenses (<[id := expense']> (Db.expenses db)) db) db
  end.

Section SettleExpense.
Variable participant_toString : Participant.t -> string.

(** [if (expense.group) await expense.group.calculateBalances()]. *)
Definition recalculate_group (expense : Expense.t) (db : Db.t) : Db.t * outcome unit :=
  match Expense.group expense with
  | Some gid =>
      match Db.groups db !! gid with
      | Some g =>
          Db.save_group gid
            (Group.calculateBalances participant_toString
               (Db.expenses_of_group gid db) g) db
      | None => (db, Returned tt)
      end
  | None => (db, Returned tt)
  end.

Definition settle_expense (caller newId : string) (now : Z)
    (body : settle_expense_body) (db : Db.t) : Db.t * response :=
  if match se_amount body with
     | Some a => negb (Num.isFloat_min_cent a)
     | None => false
     end
  then (db, validation_failed) else
  let paymentMethod := default wallet (se_paymentMethod body) in
  match Db.expenses db !! expenseId body with
  | None => (db, mkResponse 404 "Expense not found")
  | Some expenseDoc =>
      let found :=
        find_index (fun p => String.eqb (Participant.user p) caller)
                   (Expense.participants expenseDoc) in
      match found, found ≫= (fun k => Expense.participants expenseDoc !! k) with
      | Some k, Some userParticipation =>
          if Participant.settled userParticipation
          then (db, mkResponse 400 "Your part of this expense is already settled")
          else
            let share := Participant.amount userParticipation in
            let settlementAmount := settlementAmount_of (se_amount body) share in
            if Num.gtb settlementAmount share
            then (db, mkResponse 400 "Settlement amount cannot exceed your share")
            else
              (* [inl tt]: the wallet check let the call through *)
              let wallet_check : unit + response :=
                if is_wallet paymentMethod then
                  match Db.users db !! caller with
                  | None => inr settle_failed
                  | Some user =>
                      if User.walletBalance user <? settlementAmount
                      then inr (mkResponse 400 "Insufficient wallet balance")
                      else inl tt
                  end
                else inl tt in
              match wallet_check with
              | inr r => (db, r)
              | inl _ =>
                  let transaction :=
                    Transaction.mk newId settlement settlementAmount caller
                      None None (Some (Expense.paidBy expenseDoc)) 0 0
                      (Some (expenseId body))
                      (Expense.group expenseDoc ≫=
                         (fun gid => const gid <$> (Db.groups db !! gid)))
                      paymentMethod pending None None 0%Z 3%Z in
                  match Db.save_transaction transaction db with
                  | (db1, Thrown _) => (db1, settle_failed)
                  | (db1, Returned _) =>
                      match process now transaction db1 with
                      | (db2, _, Thrown _) => (db2, settle_processing_failed)
                      | (db2, _, Returned _) =>
                          let '(expenseDoc', modified) :=
                            record_settlement caller now k settlementAmount share expenseDoc in
                          match save_expense (expenseId body) modified expenseDoc' db2 with
                          | (db3, Thrown _) => (db3, settle_processing_failed)
                          | (db3, Returned _) =>
                              match recalculate_group expenseDoc' db3 with
                              | (db4, Thrown _) => (db4, settle_processing_failed)
                              | (db4, Returned _) =>
                                  (db4, mkResponse 201 "Expense settled successfully")
                              end
                          end
                      end
                  end
              end
      | _, _ => (db, mkResponse 403 "You are not a participant in this expense")
      end
  end.
End SettleExpense.
End Routes.

(** ** Who may act on a group ([middleware/authorize.js]) *)

Module Authorize.
(** [groupMemberAuth].  [groupId] is [req.params.groupId ||
    req.body.groupId], [None] when neither is given.  [inl]: [next()] was
    called, with the group's id and [req.group]; [inr]: the response the
    middleware sent. *)
Definition groupMemberAuth (caller : string) (groupId : option string) (db : Db.t)
  : (string * Group.t) + response :=
  match groupId with
  | None => inr (mkResponse 400 "Group ID required")
  | Some id =>
      if String.eqb id "" then inr (mkResponse 400 "Group ID required") else
      match Db.groups db !! id with
      | None => inr (mkResponse 404 "Group not found")
      | Some group =>
          let isMember :=
            existsb (fun member => String.eqb (Member.user member) caller
                                   && match Member.status member with
                                      | active => true | _ => false end)
                    (Group.members group) in
          let isOwner := String.eqb (Group.owner group) caller in
          if negb isMember && negb isOwner
          then inr (mkResponse 403 "You are not a member of this group")
          else inl (id, group)
      end
  end.
End Authorize.

(** ** The group handlers behind [groupMemberAuth] *)

Module GroupRoutes.
Local Open Scope float_scope.

Definition leave_failed : response := mkResponse 500 "Failed to leave group".

(** *** [POST /api/groups/:groupId/leave]

    The [$pull] of the group from the user's [groups] is a write to a field
    the model of a user does not keep: it can throw, and changes nothing
    here. *)
Definition leave (caller : string) (groupId : option string) (now : Z) (db : Db.t)
  : Db.t * response :=
  match Authorize.groupMemberAuth caller groupId db with
  | inr r => (db, r)
  | inl (id, group) =>
      if String.eqb (Group.owner group) caller
      then (db, mkResponse 400
                  "Group owner cannot leave. Transfer ownership first or delete the group.")
      else
        let member :=
          find (fun member => String.eqb (Member.user member) caller) (Group.members group) in
        if match member with
           | Some member => Num.gtb (Num.Math_abs (Member.balance member)) 0.01
           | None => false
           end
        then (db, mkResponse 400
                    "Cannot leave group with unsettled balances. Please settle all expenses first.")
        else
          let group' :=
            Group.mk (Group.name group) (Group.owner group)
              (List.filter (fun member => negb (String.eqb (Member.user member) caller))
                           (Group.members group))
              (Group.totalExpenses group) (Group.settlements group) now in
          match Db.save_group id group' db with
          | (db1, Thrown _) => (db1, leave_failed)
          | (db1, Returned _) =>
              match Db.write (fun db => db) db1 with
              | (db2, Thrown _) => (db2, leave_failed)
              | (db2, Returned _) => (db2, mkResponse 200 "Successfully left the group")
              end
          end
  end.
End GroupRoutes.

(** ** Settling a whole group ([routes/payments.js]) *)

Module Payments.
Local Open Scope float_scope.

Definition settle_group_failed : response := mkResponse 500 "Failed to settle group".

(** An entry of the local array [settlements]. *)
Record group_settlement := {
  gs_to : string;
  gs_amount : number;
  gs_transactionId : string
}.

(** The loop [for (const creditor of creditors)].  The [k]-th transaction
    the handler creates has [_id] [newId k].  [Thrown]: a
    [transaction.save()] threw, which leaves the loop for the handler's
    [catch]; a [process()] that throws is caught inside the loop. *)
Fixpoint pay_creditors (caller groupId : string) (newId : nat -> string) (now : Z)
    (paymentMethod : PaymentMethod) (creditors : list Member.t)
    (remainingOwed : number) (k : nat) (settlements : list group_settlement)
    (db : Db.t) : Db.t * outcome (list group_settlement) :=
  match creditors with
  | [] => (db, Returned settlements)
  | creditor :: rest =>
      if remainingOwed <=? 0 then (db, Returned settlements)
      else
        let settlementAmount := Num.Math_min remainingOwed (Member.balance creditor) in
        let transaction :=
          Transaction.mk (newId k) settlement settlementAmount caller None None
            (Some (Member.user creditor)) 0 0 None (Some groupId)
            paymentMethod pending None None 0%Z 3%Z in
        match Db.save_transaction transaction db with
        | (db1, Thrown message) => (db1, Thrown message)
        | (db1, Returned _) =>
            match process now transaction db1 with
            | (db2, _, Returned _) =>
                pay_creditors caller groupId newId now paymentMethod rest
                  (remainingOwed - settlementAmount) (S k)
                  (settlements ++ [{| gs_to := Member.user creditor;
                                      gs_amount := settlementAmount;
                                      gs_transactionId := newId k |}])
                  db2
            | (db2, _, Thrown _) =>
                pay_creditors caller groupId newId now paymentMethod rest
                  remainingOwed (S k) settlements db2
            end
        end
  end.

(** *** [POST /api/payments/settle-group/:groupId]

    After the loop the handler calls [group.settlementHistory.push(...)].
    [settlementHistory] is not a path of the group schema
    ([models/Group.js], lines 3-178), so the document has no such property
    and the call throws a [TypeError]: the handler's [catch] answers, and
    the [group.save()] and [calculateBalances()] that follow are never
    reached. *)
Definition settle_group (caller : string) (groupId : option string)
    (newId : nat -> string) (now : Z) (paymentMethod : option PaymentMethod)
    (db : Db.t) : Db.t * response :=
  match Authorize.groupMemberAuth caller groupId db with
  | inr r => (db, r)
  | inl (id, group) =>
      let paymentMethod := default wallet paymentMethod in
      match find (fun member => String.eqb (Member.user member) caller)
                 (Group.members group) with
      | None => (db, mkResponse 403 "You are not a member of this group")
      | Some userMember =>
          let userBalance := Member.balance userMember in
          if Num.Math_abs userBalance <? 0.01
          then (db, mkResponse 400 "No outstanding balance to settle")
          else if userBalance <? 0 then
            let amountOwed := Num.Math_abs userBalance in
            (* [inl tt]: the wallet check let the call through *)
            let wallet_check : unit + response :=
              if Routes.is_wallet paymentMethod then
                match Db.users db !! caller with
                | None => inr settle_group_failed
                | Some user =>
                    if User.walletBalance user <? amountOwed
                    then inr (mkResponse 400 "Insufficient wallet balance")
                    else inl tt
                end
              else inl tt in
            match wallet_check with
            | inr r => (db, r)
            | inl _ =>
                let creditors :=
                  List.filter (fun member => Num.gtb (Member.balance member) 0)
                              (Group.members group) in
                match pay_creditors caller id newId now paymentMethod creditors
                        amountOwed 0 [] db with
                | (db1, Thrown _) => (db1, settle_group_failed)
                | (db1, Returned _) => (db1, settle_group_failed)
                end
            end
          else (db, mkResponse 400
                      "You are owed money. Other members need to settle with you.")
      end
  end.
End Payments.

(** ** Vocabulary of the statements *)

Definition insufficient : response := mkResponse 400 "Insufficient wallet balance".







(** The equation of a member's balance. *)
Definition balance_equation (m : Member.t) : Prop :=
  Member.balance m = PrimFloat.sub (Member.totalPaid m) (Member.totalOwed m).

(** A transaction [process] has no balance update for: a settlement, a
    refund, or a transfer that names no recipient. *)
Definition moves_no_money (this : Transaction.t) : Prop :=
  match Transaction.type this, Transaction.to_user this with
  | settlement, _ | refund, _ | transfer, None => True
  | _, _ => False
  end.

(** [POST /api/transactions] gets past its recipient lookup: a transfer
    comes with a [to], and the user it names, if it names one, exists. *)
Definition recipient_resolves (body : Routes.create_body) (db : Db.t) : Prop :=
  Routes.cb_type body = transfer ->
  exists to_user, Routes.cb_to body = Some to_user
                  /\ forall id, to_user = Some id -> is_Some (Db.users db !! id).

Definition created : response := mkResponse 201 "Transaction created successfully".


(** The two filters of the suggestions, on a member. *)
Definition is_creditor (m : Member.t) : bool :=
  Num.gtb (Num.Math_abs (Member.balance m)) 0.01 && Num.gtb (Member.balance m) 0.
Definition is_debtor (m : Member.t) : bool :=
  Num.gtb (Num.Math_abs (Member.balance m)) 0.01 && PrimFloat.ltb (Member.balance m) 0.

(** The group [leave] saves: [group] without the entries of [caller]. *)
Definition without (caller : string) (now : Z) (group : Group.t) : Group.t :=
  Group.mk (Group.name group) (Group.owner group)
    (List.filter (fun member => negb (String.eqb (Member.user member) caller))
                 (Group.members group))
    (Group.totalExpenses group) (Group.settlements group) now.

(** The checks of [leave] let [caller] go: an active member who is not the
    owner, and whose first entry among the members is not more than a cent
    from zero. *)
Definition may_leave (caller : string) (group : Group.t) : Prop :=
  Group.owner group <> caller
  /\ (exists member, member ∈ Group.members group /\ Member.user member = caller
                     /\ Member.status member = active)
  /\ forall member,
       find (fun member => String.eqb (Member.user member) caller) (Group.members group)
       = Some member ->
       Num.gtb (Num.Math_abs (Member.balance member)) 0.01 = false.

(** What a store keeps besides its transactions and the fate of its writes. *)
Definition holdings (db : Db.t)
  : gmap string User.t * gmap string Group.t * gmap string Expense.t :=
  (Db.users db, Db.groups db, Db.expenses db).

(** ** Scenarios

    The concrete expenses, groups and stores the properties below are
    evaluated on. *)

Module Scenario.
Local Open Scope float_scope.

(** [total] paid by ann and split among [users] under [policy]. *)
Definition participant_of (u : string) : Participant.t :=
  Participant.mk u 0 0 1 false None.
Definition expense_of (total : number) (policy : SplitType) (users : list string)
  : Expense.t :=
  Expense.mk "dinner" total "ann" None policy (map participant_of users)
             exp_pending false None [].

Definition three : list string := ["ann"; "bob"; "cy"].

(** 100 split equally among three; 1 split equally among ten. *)
Definition hundred_by_three : Expense.t := expense_of 100 equal three.

(** Ann holds 100 and Bob 5; [tx1] moves 10 from Ann to Bob.  [store fs]
    is that store with the fate [fs] of its writes. *)
Definition ann_and_bob : gmap string User.t :=
  <["ann" := User.mk "Ann" 100]> (<["bob" := User.mk "Bob" 5]> ∅).
Definition store (fs : list (option string)) : Db.t := Db.mk ann_and_bob ∅ ∅ ∅ fs.
Definition tx1 : Transaction.t :=
  Transaction.mk "tx1" transfer 10 "ann" (Some 100) (Some 90) (Some "bob") 5 15
                 None None wallet pending None None 0%Z 3%Z.

(** [tx1] after three failed attempts, and the store that holds it. *)
Definition tx_exhausted : Transaction.t :=
  Transaction.mk "tx1" transfer 10 "ann" (Some 100) (Some 90) (Some "bob") 5 15
                 None None wallet failed None (Some "write conflict") 3%Z 3%Z.
Definition store_exhausted : Db.t :=
  Db.with_transactions {[ "tx1" := tx_exhausted ]} (store []).

(** The dinner of 100 once saved ([e1]): three shares of 100/3.  Ann holds
    100, Bob 50 and Cy nothing; Bob settles. *)
Definition dinner : Expense.t := Expense.calculateSplits hundred_by_three.
Definition dinner_store : Db.t :=
  Db.mk (<["ann" := User.mk "Ann" 100]>
           (<["bob" := User.mk "Bob" 50]> (<["cy" := User.mk "Cy" 0]> ∅)))
        ∅ {[ "e1" := dinner ]} ∅ [].

(** Groups.  [abc]: A is owed 500, B owes 200 and C 300.  [cents]: Ann is
    owed three cents, by Bob, Cy and Dee, a cent each.  [trip]: Ann and Bob,
    nothing paid and nothing owed. *)
Definition member_of (u : string) (b : number) : Member.t := Member.mk u b 0 0 active.
Definition trip : Group.t :=
  Group.mk "trip" "ann" [member_of "ann" 0; member_of "bob" 0] 0 [] 0.
Definition ann_pays_bob_10 : Group.settle_body :=
  {| Group.toUserId := Some "bob"; Group.settle_amount := Some 10; Group.note := None |}.
End Scenario.

(** ** More scenarios *)

Module Cases.
Local Open Scope float_scope.


(** The store of Ann and Bob holding [tx1], still pending. *)
Definition store_pending : Db.t :=
  Db.with_transactions {[ "tx1" := Scenario.tx1 ]} (Scenario.store []).

Definition transfer_ten_to_bob : Routes.create_body :=
  {| Routes.cb_type := transfer; Routes.cb_amount := 10;
     Routes.cb_to := Some (Some "bob"); Routes.cb_paymentMethod := None;
     Routes.cb_relatedExpense := None; Routes.cb_relatedGroup := None |}.

(** An expense of 100 with nobody to share it. *)
Definition nobody : Expense.t := Scenario.expense_of 100 equal [].

(** Two members who are both owed. *)
Definition both_owed : list Member.t :=
  [Scenario.member_of "A" 5; Scenario.member_of "B" 3].

(** The club [g1]: Ann, its owner, is owed 20, Bob is even and Cy owes 20.
    Ann holds 100, Bob 5 and Cy 50. *)
Definition club : Group.t :=
  Group.mk "club" "ann"
    [Scenario.member_of "ann" 20; Scenario.member_of "bob" 0;
     Scenario.member_of "cy" (-20)]
    20 [] 0.
Definition club_store (fs : list (option string)) : Db.t :=
  Db.mk (<["ann" := User.mk "Ann" 100]>
           (<["bob" := User.mk "Bob" 5]> (<["cy" := User.mk "Cy" 50]> ∅)))
        ∅ ∅ {[ "g1" := club ]} fs.
End Cases.

(* ===================================================================== *)
(** * Part II.  Properties                                                *)
(* ===================================================================== *)

(** ** Numbers *)

Section NumberFacts.
Local Open Scope float_scope.


(** A number above zero is truthy. *)
Lemma positive_truthy (a : number) : (0 <? a) = true -> Num.truthy a = true.
Proof.
  unfold Num.truthy, is_zero, is_nan. rewrite FloatAxioms.ltb_spec, !FloatAxioms.eqb_spec.
  change (Prim2SF zero) with (S754_zero false).
  change (Prim2SF 0) with (S754_zero false).
  destruct (Prim2SF a) as [s|s| |s m e]; cbn; try discriminate.
  - destruct s; cbn; congruence.
  - unfold SFltb, SFeqb. cbn. destruct s; try discriminate. intros _.
    rewrite Z.compare_refl, Pos.compare_cont_refl. reflexivity.
Qed.






End NumberFacts.

(** Closes [a <> b] on numbers that evaluate and differ. *)
Ltac numbers_differ :=
  let H := fresh in
  intro H;
  match type of H with
  | ?a = ?b => apply (f_equal (fun x => PrimFloat.eqb x b)) in H; vm_compute in H; discriminate H
  end.

(** ** Splits *)

Section SplitFacts.
Local Open Scope float_scope.


Lemma calculateSplits_splitType (e : Expense.t) :
  Expense.splitType (Expense.calculateSplits e) = Expense.splitType e.
Proof. destruct e as [? ? ? ? [] ? ? ? ? ?]; reflexivity. Qed.


Lemma map_const_repeat {A B} (b : B) (l : list A) :
  map (fun _ => b) l = repeat b (length l).
Proof. induction l as [|x l IH]; cbn; congruence. Qed.

End SplitFacts.



(** C2, as stated, fails.  100 split equally among 3 does not give 34, 33,
    33: there is no remainder distribution, each of the three gets 100/3. *)
Lemma equal_split_counterexample :
  map Participant.amount
      (Expense.participants (Expense.calculateSplits (Scenario.hundred_by_three)))
  <> [34; 33; 33]%float.
Proof.
  intros H. apply (f_equal (fun l => hd 0%float l)) in H. revert H. numbers_differ.
Qed.

(** C2, amended.  The equal policy divides the total by the number of
    participants in floating point and gives every participant that same
    quotient, and the percentage [100 / n], keeping the participants in input
    order; no remainder is distributed.  100 among 3 yields three shares of
    33.333333333333336, whose floating-point sum is 100. *)
Theorem equal_split_gives_each_the_quotient :
  (forall e : Expense.t,
      Expense.splitType e = equal ->
      let n := length (Expense.participants e) in
      let ps := Expense.participants (Expense.calculateSplits e) in
      map Participant.amount ps
      = repeat (PrimFloat.div (Expense.amount e) (Num.of_nat n)) n
      /\ map Participant.percentage ps = repeat (PrimFloat.div 100 (Num.of_nat n)) n
      /\ map Participant.user ps = map Participant.user (Expense.participants e))
  /\ map Participant.amount
         (Expense.participants (Expense.calculateSplits Scenario.hundred_by_three))
     = [33.333333333333336; 33.333333333333336; 33.333333333333336]%float
  /\ Expense.totalSplitAmount (Expense.calculateSplits Scenario.hundred_by_three)
     = 100%float.
Proof.
  split; [|split; vm_compute; reflexivity].
  intros e Heq. cbn zeta. unfold Expense.calculateSplits. rewrite Heq. cbn.
  rewrite !map_map. cbn. rewrite !map_const_repeat. auto.
Qed.

(** 100 among 3, through the general statement: each of Ann, Bob and Cy gets
    [100 / 3], in that order. *)
Lemma equal_split_100_by_3 :
  Expense.splitType Scenario.hundred_by_three = equal
  /\ map Participant.amount
         (Expense.participants (Expense.calculateSplits Scenario.hundred_by_three))
     = repeat (PrimFloat.div 100 (Num.of_nat 3)) 3
  /\ map Participant.user
         (Expense.participants (Expense.calculateSplits Scenario.hundred_by_three))
     = Scenario.three.
Proof.
  split; [reflexivity|].
  destruct (proj1 equal_split_gives_each_the_quotient Scenario.hundred_by_three eq_refl)
    as (Ha & _ & Hu).
  split; [exact Ha | exact Hu].
Defined.

(** ** Processing a transaction *)

(** C3, as stated, fails.  The transfer of 10 from Ann (100) to Bob (5) whose
    third write, the credit of Bob, throws: the transaction ends failed, Ann
    has been debited and holds 90, Bob still holds 5. *)
Lemma process_partial_application :
  let db := Scenario.store [None; None; Some "write conflict"] in
  let '(db', this', r) := process 0 Scenario.tx1 db in
  r = Thrown "write conflict"
  /\ Transaction.status this' = failed
  /\ Db.users db !! "ann" = Some (User.mk "Ann" 100)
  /\ Db.users db' !! "ann" = Some (User.mk "Ann" 90)
  /\ Db.users db !! "bob" = Some (User.mk "Bob" 5)
  /\ Db.users db' !! "bob" = Some (User.mk "Bob" 5).
Proof. vm_compute. repeat split. Qed.

(** C3, amended.  [process] applies a transfer as two successive writes, the
    debit of the sender and then the credit of the recipient, between two
    saves of the transaction.  When it returns, both have been applied and
    the transaction is completed.  When it throws, the transaction is failed
    with [retryCount] one higher, and the balances are what the writes before
    the failure left: untouched when the first save or the debit threw, the
    sender debited and the recipient not credited when the credit threw, both
    applied when the last save threw. *)
Theorem process_transfer_outcomes (now : Z) (this : Transaction.t) (db : Db.t)
    (recipient : string) :
  Transaction.type this = transfer ->
  Transaction.to_user this = Some recipient ->
  let debited :=
    Db.inc (Transaction.from_user this) (PrimFloat.opp (Transaction.amount this))
           (Db.users db) in
  let credited := Db.inc recipient (Transaction.amount this) debited in
  let '(db', this', r) := process now this db in
  match r with
  | Returned _ =>
      Transaction.status this' = completed
      /\ Transaction.processedAt this' = Some now
      /\ Db.users db' = credited
  | Thrown _ =>
      Transaction.status this' = failed
      /\ Transaction.retryCount this' = (Transaction.retryCount this + 1)%Z
      /\ match Db.first_fault (Db.faults db) with
         | Some 0%nat | Some 1%nat => Db.users db' = Db.users db
         | Some 2%nat => Db.users db' = debited
         | _ => Db.users db' = credited
         end
  end.
Proof.
  intros Hty Hto. destruct db as [us ts es gs fs].
  unfold process, update_balances, process_catch, Db.save_transaction,
    Db.inc_walletBalance, Db.write.
  cbn [Transaction.type Transaction.to_user Transaction.with_status
       Transaction.from_user Transaction.amount Db.faults Db.users].
  rewrite Hty, Hto.
  destruct fs as [|[m0|] [|[m1|] [|[m2|] [|[m3|] [|[m4|] fs]]]]]; cbn; auto.
Qed.

(** The same transfer with no write failing: completed, 90 and 15. *)
Lemma process_transfer_applies_both :
  Transaction.type Scenario.tx1 = transfer
  /\ Transaction.to_user Scenario.tx1 = Some "bob"
  /\ let '(db', this', r) := process 0 Scenario.tx1 (Scenario.store []) in
     r = Returned tt
     /\ Transaction.status this' = completed
     /\ Db.users db' !! "ann" = Some (User.mk "Ann" 90)
     /\ Db.users db' !! "bob" = Some (User.mk "Bob" 15).
Proof.
  split; [reflexivity|]. split; [reflexivity|].
  pose proof (process_transfer_outcomes 0 Scenario.tx1 (Scenario.store []) "bob"
                eq_refl eq_refl) as H.
  cbn zeta in H.
  destruct (process 0 Scenario.tx1 (Scenario.store [])) as [[db' this'] r] eqn:E.
  assert (Hr : r = Returned tt) by (vm_compute in E; congruence).
  rewrite Hr in H. destruct H as (Hs & _ & Hu).
  repeat split; trivial; rewrite Hu; vm_compute; reflexivity.
Defined.

(** ** Transfers beyond the balance *)

(** C4.  A transfer whose amount exceeds the sender's wallet balance is
    refused before any transaction is created or processed, and the store,
    the sender's balance with it, is left as it was: by [POST
    /api/payments/send-money] and by [POST /api/transactions] alike.  The
    refusal is 'Insufficient wallet balance' as soon as the request is one
    the handler takes up at all (an amount of at least 0.01 and, for
    send-money, a recipient who exists and is not the sender; send-money
    checks the recipient first). *)
Theorem transfer_beyond_balance_is_refused
    (caller newId : string) (now : Z) (db : Db.t) (sender : User.t) :
  Db.users db !! caller = Some sender ->
  (forall body : Routes.send_money_body,
      PrimFloat.ltb (User.walletBalance sender) (Routes.sm_amount body) = true ->
      let '(db', r) := Routes.send_money caller newId now body db in
      db' = db /\ code r <> 201
      /\ (Num.isFloat_min_cent (Routes.sm_amount body) = true ->
          is_Some (Db.users db !! Routes.recipientId body) ->
          Routes.recipientId body <> caller ->
          r = insufficient))
  /\ (forall body : Routes.create_body,
         Routes.cb_type body = transfer ->
         PrimFloat.ltb (User.walletBalance sender) (Routes.cb_amount body) = true ->
         let '(db', r) := Routes.create_transaction caller newId now body db in
         db' = db /\ code r <> 201
         /\ (Num.isFloat_min_cent (Routes.cb_amount body) = true -> r = insufficient)).
Proof.
  intros Hsender. split.
  - intros body Hlt. unfold Routes.send_money.
    destruct (Num.isFloat_min_cent (Routes.sm_amount body)); cbn [negb].
    2:{ repeat split; [discriminate | discriminate]. }
    destruct (Db.users db !! Routes.recipientId body) as [recipient|] eqn:Hrec.
    2:{ repeat split; [discriminate|]. intros _ [? ?]; discriminate. }
    destruct (String.eqb_spec (Routes.recipientId body) caller) as [Heq|Hne].
    { repeat split; [discriminate|]. intros _ _ Hne; contradiction. }
    rewrite Hsender, Hlt. repeat split. discriminate.
  - intros body Hty Hlt. unfold Routes.create_transaction.
    destruct (Num.isFloat_min_cent (Routes.cb_amount body)); cbn [negb].
    2:{ repeat split; [discriminate | discriminate]. }
    rewrite Hsender, Hty, Hlt. cbn. repeat split. discriminate.
Qed.

(** Ann, who holds 100, asks to send 150 to Bob, through either route. *)
Lemma ann_cannot_send_150 :
  let db := Scenario.store [] in
  Routes.send_money "ann" "tx2" 0 {| Routes.recipientId := "bob"; Routes.sm_amount := 150 |} db
  = (db, insufficient)
  /\ Routes.create_transaction "ann" "tx2" 0
       {| Routes.cb_type := transfer; Routes.cb_amount := 150;
          Routes.cb_to := Some (Some "bob"); Routes.cb_paymentMethod := None;
          Routes.cb_relatedExpense := None; Routes.cb_relatedGroup := None |} db
     = (db, insufficient).
Proof.
  cbn zeta.
  destruct (transfer_beyond_balance_is_refused "ann" "tx2" 0 (Scenario.store [])
              (User.mk "Ann" 100) eq_refl) as [Hsend Hcreate].
  split.
  - specialize (Hsend {| Routes.recipientId := "bob"; Routes.sm_amount := 150 |} eq_refl).
    destruct (Routes.send_money _ _ _ _ _) as [db' r].
    destruct Hsend as (-> & _ & Hr). rewrite Hr; [reflexivity | reflexivity | | discriminate].
    exists (User.mk "Bob" 5). reflexivity.
  - specialize (Hcreate
                  {| Routes.cb_type := transfer; Routes.cb_amount := 150;
                     Routes.cb_to := Some (Some "bob"); Routes.cb_paymentMethod := None;
                     Routes.cb_relatedExpense := None; Routes.cb_relatedGroup := None |}
                  eq_refl eq_refl).
    destruct (Routes.create_transaction _ _ _ _ _) as [db' r].
    destruct Hcreate as (-> & _ & Hr). rewrite Hr; reflexivity.
Defined.

(** ** Retrying and cancelling *)

(** C6.  [retry] goes on to [process] only from the failed state and only
    while [retryCount < maxRetries]; otherwise it throws and touches neither
    the transaction nor the store.  A failed transaction with [retryCount =
    3] and [maxRetries = 3] gets 'Maximum retry limit reached', from the
    method and, asked by its creator, from the route, and stays as it was. *)
Theorem retry_only_failed_below_limit (now : Z) (this : Transaction.t) (db : Db.t) :
  (Transaction.status this = failed ->
   (Transaction.retryCount this < Transaction.maxRetries this)%Z ->
   retry now this db = process now this db)
  /\ (~ (Transaction.status this = failed
         /\ (Transaction.retryCount this < Transaction.maxRetries this)%Z) ->
      exists message, retry now this db = (db, this, Thrown message))
  /\ (Transaction.status this = failed ->
      Transaction.retryCount this = 3%Z -> Transaction.maxRetries this = 3%Z ->
      retry now this db = (db, this, Thrown "Maximum retry limit reached")
      /\ forall id : string,
          Db.transactions db !! id = Some this ->
          Routes.retry_transaction (Transaction.from_user this) id now db
          = (db, mkResponse 400 "Maximum retry limit reached")).
Proof.
  unfold retry. repeat split.
  - intros Hst Hlt. destruct (Z.leb_spec (Transaction.maxRetries this)
                                         (Transaction.retryCount this)); [lia|].
    rewrite Hst. reflexivity.
  - intros Hnot.
    destruct (Z.leb_spec (Transaction.maxRetries this) (Transaction.retryCount this));
      [eauto|].
    destruct (Transaction.status this) eqn:Hst; eauto. exfalso. apply Hnot. auto.
  - rewrite H0, H1. reflexivity.
  - intros id Hid. unfold Routes.retry_transaction.
    rewrite Hid, String.eqb_refl, H, H0, H1. reflexivity.
Qed.

(** The transaction of the scenario after three failures. *)
Lemma retry_exhausted :
  let db := Scenario.store_exhausted in
  retry 0 Scenario.tx_exhausted db = (db, Scenario.tx_exhausted, Thrown "Maximum retry limit reached")
  /\ Routes.retry_transaction "ann" "tx1" 0 db
     = (db, mkResponse 400 "Maximum retry limit reached").
Proof.
  cbn zeta.
  destruct (retry_only_failed_below_limit 0 Scenario.tx_exhausted
              Scenario.store_exhausted)
    as (_ & _ & H).
  destruct (H eq_refl eq_refl eq_refl) as [Hm Hr].
  split; [exact Hm | apply (Hr "tx1"); reflexivity].
Defined.

(** C10.  A retry or a cancel asked by anyone but the transaction's
    [from.user] is answered 403 and leaves the store, hence the
    transaction's status and [retryCount] and every balance, as it was; a
    retry or cancel that is carried out was asked by the creator. *)
Theorem only_creator_retries_or_cancels
    (caller id : string) (now : Z) (db : Db.t) (this : Transaction.t) :
  Db.transactions db !! id = Some this ->
  (caller <> Transaction.from_user this ->
   Routes.retry_transaction caller id now db
   = (db, mkResponse 403 "Only transaction creator can retry")
   /\ Routes.cancel_transaction caller id db
      = (db, mkResponse 403 "Only transaction creator can cancel"))
  /\ (code (snd (Routes.retry_transaction caller id now db)) = 200 ->
      caller = Transaction.from_user this)
  /\ (code (snd (Routes.cancel_transaction caller id db)) = 200 ->
      caller = Transaction.from_user this).
Proof.
  intros Hid. unfold Routes.retry_transaction, Routes.cancel_transaction. rewrite Hid.
  destruct (String.eqb_spec (Transaction.from_user this) caller) as [Heq|Hne]; cbn [negb].
  - split; [intros Hc; congruence | split; intros _; congruence].
  - split; [intros _; split; reflexivity | split; cbn; congruence].
Qed.

(** Bob asks to retry and to cancel Ann's transaction. *)
Lemma bob_cannot_touch_anns_transaction :
  let db := Scenario.store_exhausted in
  Routes.retry_transaction "bob" "tx1" 0 db
  = (db, mkResponse 403 "Only transaction creator can retry")
  /\ Routes.cancel_transaction "bob" "tx1" db
     = (db, mkResponse 403 "Only transaction creator can cancel").
Proof.
  cbn zeta.
  apply (only_creator_retries_or_cancels "bob" "tx1" 0
           Scenario.store_exhausted
           Scenario.tx_exhausted); [reflexivity | discriminate].
Defined.

(** ** Settling a share of an expense *)

Section SettleExpenseFacts.
Local Open Scope float_scope.






End SettleExpenseFacts.











(** ** Settlement suggestions *)

Section SweepFacts.
Local Open Scope float_scope.

Lemma sort_insert_perm {A} (cmp : A -> A -> number) (x : A) (l : list A) :
  Group.sort_insert cmp x l ≡ₚ x :: l.
Proof.
  induction l as [|y l IH]; cbn; [reflexivity|].
  destruct (0 <? cmp x y); [|reflexivity].
  rewrite IH. apply Permutation_swap.
Qed.

Lemma sort_perm {A} (cmp : A -> A -> number) (l : list A) : Group.sort cmp l ≡ₚ l.
Proof.
  induction l as [|x l IH]; cbn; [reflexivity|].
  rewrite sort_insert_perm. fold (Group.sort cmp l). rewrite IH. reflexivity.
Qed.

Lemma elem_of_creditors (ms : list Member.t) (i : nat) :
  i ∈ Group.creditors ms <->
  (i < length ms)%nat
  /\ Num.gtb (Num.Math_abs (Group.balance_at ms i)) 0.01 = true
  /\ Num.gtb (Group.balance_at ms i) 0 = true.
Proof.
  unfold Group.creditors, Group.membersWithBalance.
  rewrite sort_perm, !list_elem_of_filter, elem_of_seq. intuition lia.
Qed.

Lemma elem_of_debtors (ms : list Member.t) (i : nat) :
  i ∈ Group.debtors ms <->
  (i < length ms)%nat
  /\ Num.gtb (Num.Math_abs (Group.balance_at ms i)) 0.01 = true
  /\ (Group.balance_at ms i <? 0) = true.
Proof.
  unfold Group.debtors, Group.membersWithBalance.
  rewrite sort_perm, !list_elem_of_filter, elem_of_seq. intuition lia.
Qed.






End SweepFacts.

Section Progress.
Local Open Scope float_scope.

(** A finite number, read as a specification float. *)
Lemma finite_cases (x : number) :
  is_finite x = true ->
  (exists s, Prim2SF x = S754_zero s) \/ (exists s m e, Prim2SF x = S754_finite s m e).
Proof.
  unfold is_finite, is_nan, is_infinity.
  rewrite !FloatAxioms.eqb_spec, abs_spec.
  destruct (Prim2SF x) as [s|s| |s m e]; intros H; eauto.
  - destruct s; vm_compute in H; discriminate H.
  - vm_compute in H. discriminate H.
Qed.

Lemma finite_not_nan (x : number) : is_finite x = true -> is_nan x = false.
Proof. unfold is_finite. destruct (is_nan x); [discriminate | reflexivity]. Qed.

(** [x - x] is zero when [x] is finite. *)
Lemma sub_self_cleared (x : number) :
  is_finite x = true -> (abs (x - x) <? 0.01) = true.
Proof.
  intros Hx. rewrite FloatAxioms.ltb_spec, abs_spec, sub_spec.
  destruct (finite_cases x Hx) as [[s ->] | (s & m & e & ->)].
  - destruct s; reflexivity.
  - unfold SF64sub, SFsub. rewrite Z.sub_diag. reflexivity.
Qed.

(** [d + |d|] is zero when [d] is finite and negative. *)
Lemma add_abs_cleared (d : number) :
  is_finite d = true -> (d <? 0) = true -> (abs (d + abs d) <? 0.01) = true.
Proof.
  intros Hd Hneg. rewrite FloatAxioms.ltb_spec in Hneg.
  rewrite FloatAxioms.ltb_spec, abs_spec, add_spec, abs_spec.
  destruct (finite_cases d Hd) as [[s Hs] | (s & m & e & Hs)]; rewrite Hs in *.
  - destruct s; discriminate.
  - destruct s; [|discriminate].
    unfold SF64add, SFadd. cbn [SFabs cond_Zopp].
    rewrite Z.add_opp_diag_l. reflexivity.
Qed.

Lemma Math_min_one_of (a b : number) :
  is_nan a = false -> is_nan b = false -> Num.Math_min a b = a \/ Num.Math_min a b = b.
Proof.
  intros Ha Hb. unfold Num.Math_min. rewrite Ha, Hb. cbn [orb].
  destruct (a <? b); [left; reflexivity|]. destruct (b <? a); [right; reflexivity|].
  destruct (get_sign a); [left | right]; reflexivity.
Qed.

Lemma abs_not_nan (x : number) : is_nan x = false -> is_nan (abs x) = false.
Proof.
  unfold is_nan. rewrite !FloatAxioms.eqb_spec, abs_spec.
  destruct (Prim2SF x) as [s|s| |s m e]; cbn; auto.
  unfold SFeqb. cbn. rewrite !Z.compare_refl, !Pos.compare_cont_refl.
  destruct s; auto.
Qed.

(** A turn on a creditor and a debtor with finite balances moves [i] or [j]:
    the amount transferred is the whole of one of the two balances. *)
Lemma sweep_step_advances (c d : nat) (ms : list Member.t) (mc md : Member.t) :
  c <> d -> ms !! c = Some mc -> ms !! d = Some md ->
  is_finite (Member.balance mc) = true ->
  is_finite (Member.balance md) = true ->
  (Member.balance md <? 0) = true ->
  let '(_, _, next_i, next_j) := Group.sweep_step c d ms in
  next_i || next_j = true.
Proof.
  intros Hcd Hc Hd Hfc Hfd Hneg. unfold Group.sweep_step, Group.balance_at, Num.Math_abs.
  rewrite list_lookup_alter_ne, list_lookup_alter_eq by congruence.
  rewrite list_lookup_alter_eq, list_lookup_alter_ne by congruence.
  rewrite Hc, Hd. cbn.
  destruct (Math_min_one_of (Member.balance mc) (abs (Member.balance md))
              (finite_not_nan _ Hfc) (abs_not_nan _ (finite_not_nan _ Hfd))) as [-> | ->].
  - rewrite (sub_self_cleared _ Hfc). reflexivity.
  - rewrite (add_abs_cleared _ Hfd Hneg). apply orb_true_r.
Qed.

(** The loop need not end.  With a creditor at [+Infinity] and a debtor at
    [-Infinity] the first turn makes both balances NaN, and from then on
    neither [i] nor [j] moves. *)
Lemma sweep_spins_on_nan (turns : nat) (settlements : list Group.suggestion) :
  Group.sweep turns [0%nat] [1%nat] [Scenario.member_of "A" nan; Scenario.member_of "B" nan]
              settlements = None.
Proof.
  revert settlements. induction turns as [|turns IH]; intros settlements; [reflexivity|].
  cbn [Group.sweep].
  replace (Group.sweep_step 0 1 [Scenario.member_of "A" nan; Scenario.member_of "B" nan])
    with ({| Group.sg_from := "B"; Group.sg_to := "A"; Group.sg_amount := nan |},
          [Scenario.member_of "A" nan; Scenario.member_of "B" nan], false, false)
    by (vm_compute; reflexivity).
  apply IH.
Qed.

Lemma sweep_need_not_end (turns : nat) :
  Group.suggestedSettlements turns
    [Scenario.member_of "A" infinity; Scenario.member_of "B" neg_infinity] = None.
Proof.
  unfold Group.suggestedSettlements.
  replace (Group.creditors _) with [0%nat] by (vm_compute; reflexivity).
  replace (Group.debtors _) with [1%nat] by (vm_compute; reflexivity).
  destruct turns as [|turns]; [reflexivity|]. cbn [Group.sweep].
  replace (Group.sweep_step 0 1 _)
    with ({| Group.sg_from := "B"; Group.sg_to := "A"; Group.sg_amount := infinity |},
          [Scenario.member_of "A" nan; Scenario.member_of "B" nan], false, false)
    by (vm_compute; reflexivity).
  apply sweep_spins_on_nan.
Qed.
End Progress.




(** ** Group balances *)

(** Recomputation sets every member's balance to [totalPaid - totalOwed]. *)
Lemma calculateBalances_balance_equation
    (participant_toString : Participant.t -> string) (expenses : list Expense.t)
    (g : Group.t) :
  Forall balance_equation (Group.members (Group.calculateBalances participant_toString expenses g)).
Proof.
  unfold Group.calculateBalances. cbn. apply Forall_map, Forall_forall.
  intros m _. reflexivity.
Qed.

(** C5, the failing input.  On the group of Ann and Bob, with no expense,
    Ann records a settlement of 10 to Bob: the balances maintained by the
    route are +10 and -10 and the settlement is in [group.settlements];
    recomputing the group from its history gives 0 and 0, whatever string a
    participant sub-document is matched by. *)
Theorem recomputation_forgets_settlements (participant_toString : Participant.t -> string) :
  let g := fst (Group.settle "ann" 7 Scenario.ann_pays_bob_10 Scenario.trip) in
  Group.settlements g = [Settlement.mk "ann" "bob" 10 7]
  /\ map Member.balance (Group.members g) = [10; -10]%float
  /\ map Member.balance
         (Group.members (Group.calculateBalances participant_toString [] g))
     = [0; 0]%float.
Proof. cbn zeta. repeat split; vm_compute; reflexivity. Qed.

(** C8, the failing input.  Every member of the fresh group satisfies
    [balance = totalPaid - totalOwed], and so does every member after any
    recomputation; after Ann has recorded a settlement of 10 to Bob her
    balance is 10 while her [totalPaid - totalOwed] is still 0. *)
Theorem settlement_breaks_balance_equation :
  let g := fst (Group.settle "ann" 7 Scenario.ann_pays_bob_10 Scenario.trip) in
  Forall balance_equation (Group.members Scenario.trip)
  /\ Group.members g !! 0%nat = Some (Member.mk "ann" 10 0 0 active)
  /\ ~ Forall balance_equation (Group.members g).
Proof.
  cbn zeta. split; [|split].
  - repeat constructor.
  - vm_compute. reflexivity.
  - intros H. apply Forall_inv in H. revert H. unfold balance_equation.
    numbers_differ.
Qed.

(* ===================================================================== *)
(** * Part III.  Further properties                                       *)
(* ===================================================================== *)

(** ** More on numbers and lists *)

Section MoreFacts.
Local Open Scope float_scope.


Lemma abs_zero_sub (a : number) : abs (PrimFloat.sub 0 a) = abs a.
Proof.
  apply Prim2SF_inj. rewrite !abs_spec, sub_spec.
  change (Prim2SF 0) with (S754_zero false).
  destruct (Prim2SF a) as [s|s| |s m e]; try reflexivity. destruct s; reflexivity.
Qed.


End MoreFacts.
Lemma fold_left_map_same {A} (h : A -> number) (f : A -> A) (l : list A) (a : number) :
  (forall x, h (f x) = h x) ->
  fold_left (fun s x => PrimFloat.add s (h x)) (map f l) a
  = fold_left (fun s x => PrimFloat.add s (h x)) l a.
Proof.
  intros H. revert a. induction l as [|x l IH]; intros a; cbn; [reflexivity|].
  rewrite H. apply IH.
Qed.



(** ** Recomputing the shares twice *)

(** X1.  [calculateSplits] is idempotent: run on its own result it changes
    nothing, under every split policy.  The save hook can therefore run on
    an expense any number of times (it runs at every save that modified the
    amount, the participants or the policy) and the shares stay those of the
    first run. *)
Theorem calculateSplits_idempotent (e : Expense.t) :
  Expense.calculateSplits (Expense.calculateSplits e) = Expense.calculateSplits e.
Proof.
  destruct e as [ti am pb gr [] ps st se sa ss]; unfold Expense.calculateSplits; cbn;
    unfold Expense.with_participants; cbn; f_equal;
    rewrite map_map, ?length_map; try (apply map_ext; intros p; reflexivity).
  rewrite (fold_left_map_same Participant.shares) by reflexivity.
  apply map_ext. intros p. reflexivity.
Qed.

(** ** An expense nobody takes part in *)

(** X2.  An expense with no participant: the shares add up to 0, so the save
    hook refuses it as soon as its amount is more than a cent away from
    zero, under every policy, and lets it through unchanged otherwise. *)
Theorem no_participant_no_save (e : Expense.t) :
  Expense.participants e = [] ->
  Expense.pre_save true e
  = if Num.gtb (Num.Math_abs (Expense.amount e)) Expense.tolerance
    then Thrown "Split amounts do not equal total expense amount"
    else Returned e.
Proof.
  destruct e as [ti am pb gr ty ps st se sa ss]. cbn [Expense.participants]. intros ->.
  unfold Expense.pre_save, Expense.validateSplits, Expense.totalSplitAmount.
  assert (Hc : Expense.calculateSplits (Expense.mk ti am pb gr ty [] st se sa ss)
               = Expense.mk ti am pb gr ty [] st se sa ss) by (destruct ty; reflexivity).
  rewrite Hc. cbn [Expense.participants Expense.amount Num.sum_by fold_left].
  unfold Num.Math_abs. rewrite abs_zero_sub. destruct (Num.gtb _ _); reflexivity.
Qed.

(** The expense of 100 with nobody to share it is refused. *)
Lemma nobody_is_refused :
  Expense.pre_save true Cases.nobody
  = Thrown "Split amounts do not equal total expense amount".
Proof. rewrite (no_participant_no_save Cases.nobody eq_refl). reflexivity. Defined.

(** ** What [process] writes to *)

Lemma write_users_frame (f : Db.t -> Db.t) (db : Db.t) :
  (forall d, Db.users (f d) = Db.users d) ->
  Db.users (fst (Db.write f db)) = Db.users db.
Proof.
  intros Hf. unfold Db.write. destruct (Db.faults db) as [|[m|] fs]; cbn; try reflexivity;
    rewrite Hf; reflexivity.
Qed.

Lemma save_transaction_users (x : Transaction.t) (db : Db.t) :
  Db.users (fst (Db.save_transaction x db)) = Db.users db.
Proof. apply write_users_frame. reflexivity. Qed.

Lemma inc_walletBalance_other (u : string) (delta : number) (db : Db.t) (id : string) :
  id <> u ->
  Db.users (fst (Db.inc_walletBalance u delta db)) !! id = Db.users db !! id.
Proof.
  intros Hne. unfold Db.inc_walletBalance, Db.write, Db.inc.
  destruct (Db.faults db) as [|[m|] fs]; cbn; try reflexivity;
    apply lookup_alter_ne; congruence.
Qed.

Lemma update_balances_other (this : Transaction.t) (db : Db.t) (id : string) :
  id <> Transaction.from_user this ->
  Transaction.to_user this <> Some id ->
  Db.users (fst (update_balances this db)) !! id = Db.users db !! id.
Proof.
  intros Hfrom Hto. unfold update_balances.
  destruct (Transaction.type this); try reflexivity;
    try (apply inc_walletBalance_other; exact Hfrom).
  destruct (Transaction.to_user this) as [to|]; [|reflexivity].
  pose proof (inc_walletBalance_other (Transaction.from_user this)
                (- Transaction.amount this) db id Hfrom) as H1.
  destruct (Db.inc_walletBalance (Transaction.from_user this) _ db) as [db1 [[]|m]];
    cbn in *; [|exact H1].
  rewrite inc_walletBalance_other; [exact H1 | congruence].
Qed.

Lemma process_catch_users (message : string) (this : Transaction.t) (db : Db.t) :
  Db.users (fst (fst (process_catch message this db))) = Db.users db.
Proof.
  unfold process_catch.
  pose proof (save_transaction_users (Transaction.fail message this) db) as H.
  destruct (Db.save_transaction _ db) as [db' [[]|m]]; exact H.
Qed.

(** The wallets after [process] are the wallets before it, or the wallets
    after its balance updates. *)
Lemma process_users (now : Z) (this : Transaction.t) (db : Db.t) :
  Db.users (fst (fst (process now this db))) = Db.users db
  \/ Db.users (fst (fst (process now this db)))
     = Db.users (fst (update_balances (Transaction.with_status processing this)
                        (fst (Db.save_transaction
                                (Transaction.with_status processing this) db)))).
Proof.
  unfold process.
  pose proof (save_transaction_users (Transaction.with_status processing this) db) as H1.
  destruct (Db.save_transaction (Transaction.with_status processing this) db)
    as [db1 [[]|m1]]; cbn [fst] in *.
  2:{ left. rewrite process_catch_users. exact H1. }
  right.
  destruct (update_balances (Transaction.with_status processing this) db1)
    as [db2 [[]|m2]]; cbn [fst].
  2:{ apply process_catch_users. }
  pose proof (save_transaction_users
                (Transaction.complete now (Transaction.with_status processing this)) db2) as H3.
  destruct (Db.save_transaction _ db2) as [db3 [[]|m3]]; cbn [fst] in *;
    [exact H3 | rewrite process_catch_users; exact H3].
Qed.

Lemma update_balances_no_money (this : Transaction.t) (db : Db.t) :
  moves_no_money this -> update_balances this db = (db, Returned tt).
Proof.
  unfold moves_no_money, update_balances.
  destruct (Transaction.type this), (Transaction.to_user this); intros H;
    try contradiction; reflexivity.
Qed.

Lemma process_no_money_users (now : Z) (this : Transaction.t) (db : Db.t) :
  moves_no_money this -> Db.users (fst (fst (process now this db))) = Db.users db.
Proof.
  intros H. destruct (process_users now this db) as [-> | ->]; [reflexivity|].
  rewrite update_balances_no_money by exact H. apply save_transaction_users.
Qed.




(** X4.  [process] touches two wallets at most: a user who is neither the
    sender nor the recipient of the transaction holds after it what they held
    before, whatever the type of the transaction and whichever writes
    fail. *)
Theorem process_touches_two_wallets (now : Z) (this : Transaction.t) (db : Db.t)
    (id : string) :
  id <> Transaction.from_user this ->
  Transaction.to_user this <> Some id ->
  Db.users (fst (fst (process now this db))) !! id = Db.users db !! id.
Proof.
  intros Hfrom Hto.
  destruct (process_users now this db) as [-> | ->]; [reflexivity|].
  rewrite update_balances_other by assumption.
  rewrite save_transaction_users. reflexivity.
Qed.

(** Cy is no party to the transfer from Ann to Bob. *)
Lemma cy_is_left_alone :
  Db.users (fst (fst (process 7 Scenario.tx1 Scenario.dinner_store))) !! "cy"
  = Some (User.mk "Cy" 0).
Proof.
  rewrite (process_touches_two_wallets 7 Scenario.tx1 Scenario.dinner_store "cy");
    [reflexivity | discriminate | discriminate].
Defined.

(** ** Retrying after the last save failed *)

(** X5.  A transfer whose two balance updates went through and whose final
    save threw is left failed with both updates applied.  Retrying it (the
    limit allowing) processes it again from the start: the sender is debited
    and the recipient credited a second time, and the transaction ends
    completed. *)
Theorem retry_applies_transfer_again (now later : Z) (this : Transaction.t) (db : Db.t)
    (recipient message : string) :
  Transaction.type this = transfer ->
  Transaction.to_user this = Some recipient ->
  Db.faults db = [None; None; None; Some message] ->
  (Transaction.retryCount this + 1 < Transaction.maxRetries this)%Z ->
  let once :=
    Db.inc recipient (Transaction.amount this)
      (Db.inc (Transaction.from_user this) (PrimFloat.opp (Transaction.amount this))
              (Db.users db)) in
  let twice :=
    Db.inc recipient (Transaction.amount this)
      (Db.inc (Transaction.from_user this) (PrimFloat.opp (Transaction.amount this)) once) in
  let '(db1, this1, r1) := process now this db in
  let '(db2, this2, r2) := retry later this1 db1 in
  r1 = Thrown message
  /\ Transaction.status this1 = failed
  /\ Db.users db1 = once
  /\ r2 = Returned tt
  /\ Transaction.status this2 = completed
  /\ Db.users db2 = twice.
Proof.
  intros Hty Hto Hf Hlt. destruct db as [us ts es gs fs]. cbn in Hf. subst fs.
  unfold process at 1, update_balances, process_catch, Db.save_transaction,
    Db.inc_walletBalance, Db.write.
  cbn [Transaction.type Transaction.to_user Transaction.with_status
       Transaction.from_user Transaction.amount Db.faults Db.users].
  rewrite Hty, Hto. cbn.
  assert (Hl : (Transaction.maxRetries this <=? Transaction.retryCount this + 1)%Z = false)
    by (apply Z.leb_gt; lia).
  unfold retry. cbn [Transaction.maxRetries Transaction.retryCount Transaction.fail
                     Transaction.complete Transaction.with_status Transaction.status].
  rewrite Hl.
  unfold process, update_balances, Db.save_transaction, Db.inc_walletBalance, Db.write.
  cbn. rewrite Hty, Hto. cbn. repeat split.
Qed.

(** The transfer of 10 from Ann (100) to Bob (5), failed at its last save and
    retried: Ann holds 80 and Bob 25. *)
Lemma ann_pays_twice :
  let '(db1, this1, r1) :=
    process 7 Scenario.tx1 (Scenario.store [None; None; None; Some "write conflict"]) in
  let '(db2, this2, r2) := retry 8 this1 db1 in
  Transaction.status this1 = failed
  /\ Db.users db1 !! "ann" = Some (User.mk "Ann" 90)
  /\ r2 = Returned tt
  /\ Transaction.status this2 = completed
  /\ Db.users db2 !! "ann" = Some (User.mk "Ann" 80)
  /\ Db.users db2 !! "bob" = Some (User.mk "Bob" 25).
Proof.
  pose proof (retry_applies_transfer_again 7 8 Scenario.tx1
                (Scenario.store [None; None; None; Some "write conflict"])
                "bob" "write conflict" eq_refl eq_refl eq_refl eq_refl) as H.
  cbn zeta in H.
  destruct (process 7 Scenario.tx1 _) as [[db1 this1] r1].
  destruct (retry 8 this1 db1) as [[db2 this2] r2].
  destruct H as (_ & Hs1 & Hu1 & Hr2 & Hs2 & Hu2).
  rewrite Hu1, Hu2. repeat split; try assumption; vm_compute; reflexivity.
Defined.

(** ** Cancelling *)

(** X6.  [POST /:transactionId/cancel] never changes a wallet.  It answers
    200 only to the creator of a transaction that is pending or processing,
    and that transaction is then stored cancelled; whenever it answers
    anything else, the stored transactions are what they were. *)
Theorem cancel_only_before_the_end (caller id : string) (db : Db.t) :
  let '(db', r) := Routes.cancel_transaction caller id db in
  Db.users db' = Db.users db
  /\ (code r = 200 ->
      exists this,
        Db.transactions db !! id = Some this
        /\ Transaction.from_user this = caller
        /\ (Transaction.status this = pending \/ Transaction.status this = processing)
        /\ Db.transactions db' !! Transaction._id this
           = Some (Transaction.with_status cancelled this))
  /\ (code r <> 200 -> Db.transactions db' = Db.transactions db).
Proof.
  unfold Routes.cancel_transaction.
  destruct (Db.transactions db !! id) as [this|] eqn:Hid;
    [|split; [reflexivity | split; [discriminate | reflexivity]]].
  destruct (String.eqb_spec (Transaction.from_user this) caller) as [Hc|Hc]; cbn [negb];
    [|split; [reflexivity | split; [discriminate | reflexivity]]].
  destruct (Transaction.status this) eqn:Hst;
    try (split; [reflexivity | split; [discriminate | reflexivity]]);
    unfold Db.save_transaction, Db.write;
    destruct (Db.faults db) as [|[m|] fs]; cbn;
    (split; [reflexivity | split; [|congruence]]);
    try discriminate; intros _; exists this; rewrite lookup_insert_eq; auto.
Qed.

(** Ann cancels the pending transfer [tx1]. *)
Lemma ann_cancels_tx1 :
  let '(db', r) := Routes.cancel_transaction "ann" "tx1" Cases.store_pending in
  code r = 200
  /\ exists this, Db.transactions db' !! "tx1" = Some this
                  /\ Transaction.status this = cancelled.
Proof.
  pose proof (cancel_only_before_the_end "ann" "tx1" Cases.store_pending) as H.
  destruct (Routes.cancel_transaction "ann" "tx1" Cases.store_pending) as [db' r] eqn:E.
  assert (Hr : code r = 200) by (vm_compute in E; injection E as _ <-; reflexivity).
  split; [exact Hr|]. destruct H as (_ & H200 & _).
  destruct (H200 Hr) as (this & Hfound & _ & _ & Hstored).
  assert (Hheld : Db.transactions Cases.store_pending !! "tx1" = Some Scenario.tx1)
    by (vm_compute; reflexivity).
  rewrite Hheld in Hfound. injection Hfound as <-.
  eexists. split; [exact Hstored | reflexivity].
Defined.

(** ** Sending money *)



(** ** Creating a transaction *)

(** X8.  [POST /api/transactions] logs a failure of [process] and goes on:
    once the request passed the checks and the first save went through, the
    answer is 201 'Transaction created successfully' whatever became of the
    processing.  When the very next write throws, no wallet has changed and
    the stored transaction is not completed. *)
Theorem create_transaction_hides_processing_failure
    (caller newId : string) (now : Z) (body : Routes.create_body) (db : Db.t)
    (fromUser : User.t) :
  Db.users db !! caller = Some fromUser ->
  Num.isFloat_min_cent (Routes.cb_amount body) = true ->
  Routes.outgoing (Routes.cb_type body)
  && PrimFloat.ltb (User.walletBalance fromUser) (Routes.cb_amount body) = false ->
  recipient_resolves body db ->
  Db.first_fault (Db.faults db) <> Some 0%nat ->
  let '(db', r) := Routes.create_transaction caller newId now body db in
  r = created
  /\ (Db.first_fault (Db.faults db) = Some 1%nat ->
      Db.users db' = Db.users db
      /\ exists t, Db.transactions db' !! newId = Some t
                   /\ Transaction.status t <> completed).
Proof.
  intros Hfrom Hval Hfunds Hto Hfault. unfold Routes.create_transaction.
  rewrite Hval, Hfrom, Hfunds. cbn [negb].
  set (toUser := match Routes.cb_type body, Routes.cb_to body with
                 | transfer, None => _ | transfer, Some (Some id) => _ | _, _ => _ end).
  assert (HtoUser : exists u, toUser = inl u).
  { subst toUser. unfold recipient_resolves in Hto.
    destruct (Routes.cb_type body); eauto.
    destruct (Hto eq_refl) as (to_user & -> & Hid).
    destruct to_user as [id|]; eauto.
    destruct (Hid id eq_refl) as [u ->]. eauto. }
  destruct HtoUser as [u HtoUser]. rewrite HtoUser. clear HtoUser toUser.
  match goal with |- context [Db.save_transaction ?t db] => set (t0 := t) end.
  assert (Hid : Transaction._id t0 = newId) by reflexivity.
  assert (Hst : Transaction.status t0 = pending) by reflexivity.
  clearbody t0.
  destruct db as [us ts es gs fs]. cbn [Db.faults Db.users] in *.
  destruct fs as [|[m0|] fs]; [| exfalso; apply Hfault; reflexivity |].
  - unfold Db.save_transaction, Db.write. cbn [Db.faults].
    destruct (process now t0 _) as [[db2 t2] r2]. split; [reflexivity|]. discriminate.
  - unfold Db.save_transaction at 1. unfold Db.write. cbn [Db.faults].
    destruct (process now t0 _) as [[db2 t2] r2] eqn:E. split; [reflexivity|].
    cbn [Db.first_fault]. intros H1.
    destruct fs as [|[m1|] fs]; cbn in H1; try discriminate.
    2:{ destruct (Db.first_fault fs); discriminate. }
    unfold process, process_catch, Db.save_transaction, Db.write in E.
    cbn [Db.faults Db.with_faults Db.with_transactions Db.users Db.transactions
         Db.expenses Db.groups] in E.
    destruct fs as [|[m2|] fs]; inversion E; subst; cbn; (split; [reflexivity|]);
      eexists; (split; [rewrite <- ?Hid; apply lookup_insert_eq|]); cbn; congruence.
Qed.

(** Ann's transfer of 10 to Bob, the second write failing: 201, and Ann still
    holds 100. *)
Lemma ann_is_told_created :
  let '(db', r) :=
    Routes.create_transaction "ann" "tx2" 7 Cases.transfer_ten_to_bob
      (Scenario.store [None; Some "write conflict"]) in
  r = created
  /\ Db.users db' !! "ann" = Some (User.mk "Ann" 100)
  /\ exists t, Db.transactions db' !! "tx2" = Some t
               /\ Transaction.status t <> completed.
Proof.
  assert (Hto : recipient_resolves Cases.transfer_ten_to_bob
                  (Scenario.store [None; Some "write conflict"])).
  { intros _. exists (Some "bob"). split; [reflexivity|].
    intros id [= <-]. eexists. reflexivity. }
  pose proof (create_transaction_hides_processing_failure "ann" "tx2" 7
                Cases.transfer_ten_to_bob (Scenario.store [None; Some "write conflict"])
                (User.mk "Ann" 100) eq_refl eq_refl eq_refl Hto) as H.
  destruct (Routes.create_transaction _ _ _ _ _) as [db' r].
  destruct H as (Hr & Hrest); [discriminate|].
  destruct (Hrest eq_refl) as (Hu & Ht).
  split; [exact Hr|]. split; [rewrite Hu; reflexivity | exact Ht].
Defined.

(** ** Settling an expense moves no money *)

Lemma save_expense_users (id : string) (modified : bool) (x : Expense.t) (db : Db.t) :
  Db.users (fst (Routes.save_expense id modified x db)) = Db.users db.
Proof.
  unfold Routes.save_expense. destruct (Expense.pre_save modified x); [|reflexivity].
  apply write_users_frame. reflexivity.
Qed.

Lemma recalculate_group_users toStr (x : Expense.t) (db : Db.t) :
  Db.users (fst (Routes.recalculate_group toStr x db)) = Db.users db.
Proof.
  unfold Routes.recalculate_group, Db.save_group.
  destruct (Expense.group x) as [gid|]; [|reflexivity].
  destruct (Db.groups db !! gid); [|reflexivity].
  apply write_users_frame. reflexivity.
Qed.

(** X9.  [POST /settle-expense] never changes a wallet: for every request,
    every store and whichever writes fail, each user holds after the call
    what they held before.  (The handler checks the caller's wallet against
    the amount, and processes a transaction of type settlement, for which
    [process] has no balance update.) *)
Theorem settle_expense_moves_no_money
    (participant_toString : Participant.t -> string)
    (caller newId : string) (now : Z) (body : Routes.settle_expense_body) (db : Db.t) :
  Db.users (fst (Routes.settle_expense participant_toString caller newId now body db))
  = Db.users db.
Proof.
  unfold Routes.settle_expense.
  destruct (match Routes.se_amount body with Some a => _ | None => _ end); [reflexivity|].
  destruct (Db.expenses db !! Routes.expenseId body) as [e|]; [|reflexivity].
  destruct (find_index _ _) as [k|]; [|reflexivity]. cbn [mbind option_bind].
  destruct (Expense.participants e !! k) as [p|]; [|reflexivity].
  destruct (Participant.settled p); [reflexivity|].
  destruct (Num.gtb _ _); [reflexivity|].
  match goal with |- context [match ?c with inl _ => _ | inr r => (db, r) end] =>
    destruct c as [[]|r] end; [|reflexivity].
  match goal with |- context [Db.save_transaction ?t db] => set (t0 := t) end.
  pose proof (save_transaction_users t0 db) as H1.
  destruct (Db.save_transaction t0 db) as [db1 [[]|m1]]; cbn [fst] in H1; [|exact H1].
  pose proof (process_no_money_users now t0 db1 I) as H2.
  destruct (process now t0 db1) as [[db2 t2] [[]|m2]]; cbn [fst] in H2;
    [|cbn; congruence].
  destruct (Routes.record_settlement _ _ _ _ _ _) as [e' modified].
  pose proof (save_expense_users (Routes.expenseId body) modified e' db2) as H3.
  destruct (Routes.save_expense _ _ _ db2) as [db3 [[]|m3]]; cbn [fst] in H3;
    [|cbn; congruence].
  pose proof (recalculate_group_users participant_toString e' db3) as H4.
  destruct (Routes.recalculate_group _ _ db3) as [db4 [[]|m4]]; cbn [fst] in *; congruence.
Qed.

(** ** Settling the same share twice *)






(** ** Recording a settlement in a group *)



(** ** Recomputing the balances of a group *)

Section Recompute.
Variable participant_toString : Participant.t -> string.

Lemma reset_update_first (pred : Member.t -> bool) (f : Member.t -> Member.t)
    (l : list Member.t) :
  (forall m, Group.reset (f m) = Group.reset m) ->
  map Group.reset (update_first pred f l) = map Group.reset l.
Proof.
  intros H. induction l as [|x l IH]; cbn; [reflexivity|].
  destruct (pred x); cbn; [rewrite H | rewrite IH]; reflexivity.
Qed.

Lemma reset_replay_expense (ms : list Member.t) (e : Expense.t) :
  map Group.reset (Group.replay_expense participant_toString ms e) = map Group.reset ms.
Proof.
  unfold Group.replay_expense.
  set (ms1 := update_first _ _ ms).
  assert (H1 : map Group.reset ms1 = map Group.reset ms)
    by (apply reset_update_first; reflexivity).
  rewrite <- H1. clearbody ms1. clear H1.
  generalize (Expense.amount e / Num.of_nat (length (Expense.participants e)))%float.
  intros splitAmount. revert ms1.
  induction (Expense.participants e) as [|p ps IH]; intros ms1; cbn; [reflexivity|].
  rewrite IH. apply reset_update_first. reflexivity.
Qed.

Lemma reset_replay_all (expenses : list Expense.t) (ms : list Member.t) :
  map Group.reset (fold_left (Group.replay_expense participant_toString) expenses ms)
  = map Group.reset ms.
Proof.
  revert ms. induction expenses as [|e es IH]; intros ms; cbn; [reflexivity|].
  rewrite IH. apply reset_replay_expense.
Qed.

Lemma reset_calculateBalances (expenses : list Expense.t) (g : Group.t) :
  map Group.reset (Group.members (Group.calculateBalances participant_toString expenses g))
  = map Group.reset (Group.members g).
Proof.
  unfold Group.calculateBalances. cbn [Group.members Group.with_members].
  rewrite map_map.
  rewrite (map_ext (fun m => Group.reset (Member.with_balance _ m)) Group.reset)
    by reflexivity.
  rewrite reset_replay_all, map_map. apply map_ext. reflexivity.
Qed.

(** X12.  [calculateBalances] works from the expenses alone: what the
    members' [balance], [totalPaid] and [totalOwed] were before does not
    enter the result, so recomputing a recomputed group changes nothing.
    It keeps the members, in their order, with their status, and leaves
    [group.settlements] as it is. *)
Theorem calculateBalances_from_expenses_alone (expenses : list Expense.t) (g : Group.t) :
  let g' := Group.calculateBalances participant_toString expenses g in
  Group.calculateBalances participant_toString expenses g' = g'
  /\ map Member.user (Group.members g') = map Member.user (Group.members g)
  /\ map Member.status (Group.members g') = map Member.status (Group.members g)
  /\ Group.settlements g' = Group.settlements g.
Proof.
  cbn zeta. pose proof (reset_calculateBalances expenses g) as H. repeat split.
  - unfold Group.calculateBalances at 1. rewrite H.
    unfold Group.calculateBalances. reflexivity.
  - apply (f_equal (map Member.user)) in H. rewrite !map_map in H. exact H.
  - apply (f_equal (map Member.status)) in H. rewrite !map_map in H. exact H.
Qed.

End Recompute.

(** ** Suggestions need a creditor and a debtor *)

Lemma no_creditor (ms : list Member.t) :
  Forall (fun m => is_creditor m = false) ms -> Group.creditors ms = [].
Proof.
  intros H. apply elem_of_nil_inv. intros i Hi.
  apply elem_of_creditors in Hi as (Hlt & Habs & Hpos).
  apply lookup_lt_is_Some_2 in Hlt as [m Hm].
  rewrite Forall_forall in H. specialize (H m (list_elem_of_lookup_2 _ _ _ Hm)).
  unfold is_creditor, Num.gtb, Num.Math_abs, Group.balance_at in *. rewrite Hm in Habs, Hpos. cbn in Habs, Hpos.
  rewrite Habs, Hpos in H. discriminate.
Qed.

Lemma no_debtor (ms : list Member.t) :
  Forall (fun m => is_debtor m = false) ms -> Group.debtors ms = [].
Proof.
  intros H. apply elem_of_nil_inv. intros i Hi.
  apply elem_of_debtors in Hi as (Hlt & Habs & Hneg).
  apply lookup_lt_is_Some_2 in Hlt as [m Hm].
  rewrite Forall_forall in H. specialize (H m (list_elem_of_lookup_2 _ _ _ Hm)).
  unfold is_debtor, Num.gtb, Num.Math_abs, Group.balance_at in *. rewrite Hm in Habs, Hneg. cbn in Habs, Hneg.
  rewrite Habs, Hneg in H. discriminate.
Qed.

(** X13.  The suggestions of [GET /:groupId/balances] need both sides.  When
    no member is a creditor (more than a cent from zero, and above it), or
    none is a debtor, the loop does not run: there is no suggestion and the
    balances are left as they are, whatever the number of turns allowed. *)
Theorem no_suggestion_without_both_sides (turns : nat) (ms : list Member.t) :
  Forall (fun m => is_creditor m = false) ms \/ Forall (fun m => is_debtor m = false) ms ->
  Group.suggestedSettlements turns ms = Some ([], ms).
Proof.
  unfold Group.suggestedSettlements. intros [H | H].
  - rewrite (no_creditor ms H). destruct turns; reflexivity.
  - rewrite (no_debtor ms H). destruct (Group.creditors ms), turns; reflexivity.
Qed.

(** Two members who are both owed: nothing is suggested. *)
Lemma nobody_to_pay :
  Group.suggestedSettlements 0 Cases.both_owed = Some ([], Cases.both_owed).
Proof.
  apply no_suggestion_without_both_sides. right. repeat constructor.
Defined.

(** X19.  [GET /:groupId/balances] recomputes the balances and then looks
    for suggestions.  For a group that has no expense the recomputation sets
    every balance to 0 - 0, so nothing is suggested, whatever balances the
    members had in the store (those that [POST /:groupId/settle] wrote
    included). *)
Theorem no_expense_no_suggestion (participant_toString : Participant.t -> string)
    (turns : nat) (g : Group.t) :
  let members := Group.members (Group.calculateBalances participant_toString [] g) in
  Forall (fun m => Member.balance m = PrimFloat.sub 0 0) members
  /\ Group.suggestedSettlements turns members = Some ([], members).
Proof.
  cbn zeta.
  assert (H : Forall (fun m => Member.balance m = PrimFloat.sub 0 0)
                     (Group.members (Group.calculateBalances participant_toString [] g))).
  { unfold Group.calculateBalances. cbn. rewrite map_map. apply Forall_map, Forall_forall.
    intros m _. reflexivity. }
  split; [exact H|].
  unfold Group.suggestedSettlements. rewrite no_creditor.
  - destruct turns; reflexivity.
  - eapply Forall_impl; [exact H|]. intros m Hm. unfold is_creditor. rewrite Hm.
    vm_compute. reflexivity.
Qed.

(** ** Who a group lets in *)

Lemma groupMemberAuth_lets_in' (caller : string) (groupId : option string) (db : Db.t)
    (id : string) (group : Group.t) :
  Authorize.groupMemberAuth caller groupId db = inl (id, group)
  <-> groupId = Some id /\ id <> "" /\ Db.groups db !! id = Some group
      /\ (Group.owner group = caller
          \/ exists member, member ∈ Group.members group
                            /\ Member.user member = caller
                            /\ Member.status member = active).
Proof.
  unfold Authorize.groupMemberAuth. split.
  - destruct groupId as [gid|]; [|discriminate].
    destruct (String.eqb_spec gid "") as [|Hne]; [discriminate|].
    destruct (Db.groups db !! gid) as [g|] eqn:Hg; [|discriminate].
    destruct (existsb _ _) eqn:Hex; cbn [negb andb].
    + intros [= <- <-]. repeat split; try assumption. right.
      apply existsb_exists in Hex as (m & Hin & Hm).
      apply andb_true_iff in Hm as [Hu Hs]. apply String.eqb_eq in Hu.
      exists m. rewrite list_elem_of_In. repeat split; try assumption.
      destruct (Member.status m); congruence.
    + destruct (String.eqb_spec (Group.owner g) caller) as [Ho|Ho]; cbn [negb];
        [|discriminate].
      intros [= <- <-]. repeat split; try assumption. left. exact Ho.
  - intros (-> & Hne & Hg & Hwho).
    destruct (String.eqb_spec id "") as [|_]; [contradiction|]. rewrite Hg.
    destruct Hwho as [<- | (m & Hin & Hu & Hs)].
    + rewrite String.eqb_refl, andb_false_r. reflexivity.
    + assert (Hex : existsb (fun member => String.eqb (Member.user member) caller
                                && match Member.status member with
                                   | active => true | _ => false end)
                            (Group.members group) = true).
      { apply existsb_exists. exists m. rewrite <- list_elem_of_In. split; [exact Hin|].
        rewrite Hu, Hs, String.eqb_refl. reflexivity. }
      rewrite Hex. reflexivity.
Qed.

Lemma groupMemberAuth_codes (caller : string) (groupId : option string) (db : Db.t)
    (r : response) :
  Authorize.groupMemberAuth caller groupId db = inr r ->
  code r = 400 \/ code r = 404 \/ code r = 403.
Proof.
  unfold Authorize.groupMemberAuth.
  destruct groupId as [gid|]; [|intros [= <-]; auto].
  destruct (String.eqb gid ""); [intros [= <-]; auto|].
  destruct (Db.groups db !! gid); [|intros [= <-]; auto].
  destruct (_ && _); [intros [= <-]; auto | discriminate].
Qed.


(** ** Leaving a group *)

Lemma leave_passes (caller id : string) (now : Z) (db : Db.t) (group : Group.t) :
  id <> "" -> Db.groups db !! id = Some group -> may_leave caller group ->
  GroupRoutes.leave caller (Some id) now db
  = match Db.save_group id (without caller now group) db with
    | (db1, Thrown _) => (db1, GroupRoutes.leave_failed)
    | (db1, Returned _) =>
        match Db.write (fun db => db) db1 with
        | (db2, Thrown _) => (db2, GroupRoutes.leave_failed)
        | (db2, Returned _) => (db2, mkResponse 200 "Successfully left the group")
        end
    end.
Proof.
  intros Hid Hg (Hown & Hmem & Hbal). unfold GroupRoutes.leave.
  rewrite (proj2 (groupMemberAuth_lets_in' caller (Some id) db id group)) by auto.
  destruct (String.eqb_spec (Group.owner group) caller) as [|_]; [contradiction|].
  destruct (find _ (Group.members group)) as [m|] eqn:Hfind; [|reflexivity].
  rewrite (Hbal m eq_refl). reflexivity.
Qed.

Lemma save_group_frame (id : string) (g : Group.t) (db : Db.t) :
  let db' := fst (Db.save_group id g db) in
  Db.users db' = Db.users db
  /\ Db.transactions db' = Db.transactions db
  /\ Db.expenses db' = Db.expenses db
  /\ (forall id', id' <> id -> Db.groups db' !! id' = Db.groups db !! id')
  /\ (snd (Db.save_group id g db) = Returned tt -> Db.groups db' !! id = Some g)
  /\ (snd (Db.save_group id g db) <> Returned tt -> Db.groups db' = Db.groups db).
Proof.
  unfold Db.save_group, Db.write. destruct (Db.faults db) as [|[m|] fs]; cbn;
    repeat split; try congruence; try (intros; apply lookup_insert_ne; congruence);
    try (intros; apply lookup_insert_eq).
Qed.

Lemma write_nothing (db : Db.t) :
  let db' := fst (Db.write (fun db => db) db) in
  Db.users db' = Db.users db /\ Db.transactions db' = Db.transactions db
  /\ Db.expenses db' = Db.expenses db /\ Db.groups db' = Db.groups db.
Proof.
  unfold Db.write. destruct (Db.faults db) as [|[m|] fs]; cbn; repeat split.
Qed.

Lemma without_forgets (caller : string) (now : Z) (group : Group.t) :
  Forall (fun member => Member.user member <> caller)
         (Group.members (without caller now group)).
Proof.
  apply Forall_forall. intros m Hm. apply list_elem_of_In, filter_In in Hm as [_ Hm].
  apply negb_true_iff in Hm. intros Heq. rewrite Heq, String.eqb_refl in Hm. discriminate.
Qed.

(** X15.  When [POST /:groupId/leave] answers 200, the caller was an active
    member and not the owner, and their first entry was not more than a cent
    from zero; the group is stored without any entry of the caller and with
    every entry of the others; no other group and no wallet has changed. *)
Theorem leave_200_removes_the_caller
    (caller : string) (groupId : option string) (now : Z) (db : Db.t) :
  code (snd (GroupRoutes.leave caller groupId now db)) = 200 ->
  let db' := fst (GroupRoutes.leave caller groupId now db) in
  exists id group,
    groupId = Some id
    /\ Db.groups db !! id = Some group
    /\ may_leave caller group
    /\ Db.groups db' !! id = Some (without caller now group)
    /\ Forall (fun member => Member.user member <> caller)
              (Group.members (without caller now group))
    /\ (forall member, member ∈ Group.members group -> Member.user member <> caller ->
                       member ∈ Group.members (without caller now group))
    /\ (forall id', id' <> id -> Db.groups db' !! id' = Db.groups db !! id')
    /\ Db.users db' = Db.users db.
Proof.
  unfold GroupRoutes.leave.
  destruct (Authorize.groupMemberAuth caller groupId db) as [[id group]|r] eqn:Hauth.
  2:{ destruct (groupMemberAuth_codes caller groupId db r Hauth) as [H|[H|H]];
      cbn [snd]; rewrite H; discriminate. }
  apply groupMemberAuth_lets_in' in Hauth as (-> & Hid & Hg & Hwho).
  destruct (String.eqb_spec (Group.owner group) caller) as [|Hown]; [discriminate|].
  destruct Hwho as [|Hmem]; [contradiction|].
  destruct (match find _ (Group.members group) with Some _ => _ | None => _ end) eqn:Hbal;
    [discriminate|].
  fold (without caller now group).
  pose proof (save_group_frame id (without caller now group) db) as Hsave. cbn zeta in Hsave.
  destruct (Db.save_group id (without caller now group) db) as [db1 [[]|m1]];
    cbn [fst snd] in Hsave; [|discriminate].
  pose proof (write_nothing db1) as Hpull. cbn zeta in Hpull.
  destruct (Db.write (fun db => db) db1) as [db2 [[]|m2]]; cbn [fst snd] in *;
    [|discriminate].
  intros _. destruct Hsave as (Hu & _ & _ & Hother & Hthis & _).
  destruct Hpull as (Hu2 & _ & _ & Hg2).
  exists id, group. split; [reflexivity|]. split; [exact Hg|]. split.
  { split; [exact Hown|]. split; [exact Hmem|]. intros m Hm. rewrite Hm in Hbal. exact Hbal. }
  rewrite Hg2. split; [apply Hthis; reflexivity|]. split.
  { apply Forall_forall. intros m Hm. apply list_elem_of_In, filter_In in Hm as [_ Hm].
    apply negb_true_iff in Hm. intros Heq. rewrite Heq, String.eqb_refl in Hm. discriminate. }
  split.
  { intros m Hin Hne. apply list_elem_of_In, filter_In. split; [apply list_elem_of_In, Hin|].
    apply negb_true_iff. apply String.eqb_neq. exact Hne. }
  split; [exact Hother | congruence].
Qed.

(** Bob, who is even, leaves the club: Ann and Cy remain. *)
Lemma bob_leaves_the_club :
  let db' := fst (GroupRoutes.leave "bob" (Some "g1") 7 (Cases.club_store [])) in
  exists g', Db.groups db' !! "g1" = Some g'
             /\ map Member.user (Group.members g') = ["ann"; "cy"]
             /\ Db.users db' = Db.users (Cases.club_store []).
Proof.
  destruct (leave_200_removes_the_caller "bob" (Some "g1") 7 (Cases.club_store []) eq_refl)
    as (id & group & [= <-] & Hg & _ & Hg' & _ & _ & _ & Hu).
  assert (Hheld : Db.groups (Cases.club_store []) !! "g1" = Some Cases.club)
    by (vm_compute; reflexivity).
  rewrite Hheld in Hg. injection Hg as <-. eexists. split; [exact Hg'|]. split; [reflexivity | exact Hu].
Defined.

(** X16.  [leave] refuses, and leaves the store as it was, the owner of the
    group and a caller whose first entry among the members is more than a
    cent from zero (400; 403 when the middleware had already turned the
    caller away). *)
Theorem leave_refused_keeps_the_group
    (caller id : string) (now : Z) (db : Db.t) (group : Group.t) :
  id <> "" -> Db.groups db !! id = Some group ->
  Group.owner group = caller
  \/ (exists member,
        find (fun member => String.eqb (Member.user member) caller) (Group.members group)
        = Some member
        /\ Num.gtb (Num.Math_abs (Member.balance member)) 0.01 = true) ->
  let '(db', r) := GroupRoutes.leave caller (Some id) now db in
  db' = db /\ (code r = 400 \/ code r = 403).
Proof.
  intros Hid Hg Hwhy. unfold GroupRoutes.leave.
  destruct (Authorize.groupMemberAuth caller (Some id) db) as [[id' group']|r] eqn:Hauth.
  2:{ split; [reflexivity|].
      destruct (groupMemberAuth_codes caller (Some id) db r Hauth) as [H|[H|H]];
        auto.
      exfalso. revert Hauth H. unfold Authorize.groupMemberAuth.
      destruct (String.eqb_spec id "") as [|_]; [contradiction|]. rewrite Hg.
      destruct (_ && _); [intros [= <-]; discriminate | discriminate]. }
  apply groupMemberAuth_lets_in' in Hauth as ([= <-] & _ & Hg' & _).
  assert (group' = group) as -> by congruence.
  destruct (String.eqb_spec (Group.owner group) caller) as [|Hown]; [auto|].
  destruct Hwhy as [|(m & Hfind & Hbal)]; [contradiction|].
  rewrite Hfind, Hbal. auto.
Qed.

(** Ann owns the club, and Cy owes 20: neither can leave. *)
Lemma ann_and_cy_stay :
  (fst (GroupRoutes.leave "ann" (Some "g1") 7 (Cases.club_store [])) = Cases.club_store []
   /\ code (snd (GroupRoutes.leave "ann" (Some "g1") 7 (Cases.club_store []))) = 400)
  /\ (fst (GroupRoutes.leave "cy" (Some "g1") 7 (Cases.club_store [])) = Cases.club_store []
      /\ code (snd (GroupRoutes.leave "cy" (Some "g1") 7 (Cases.club_store []))) = 400).
Proof.
  split.
  - pose proof (leave_refused_keeps_the_group "ann" "g1" 7 (Cases.club_store []) Cases.club)
      as H.
    destruct (GroupRoutes.leave "ann" (Some "g1") 7 (Cases.club_store [])) as [db' r] eqn:E.
    destruct H as [Hdb _]; [discriminate | reflexivity | left; reflexivity |].
    split; [exact Hdb|]. vm_compute in E. injection E as _ <-. reflexivity.
  - pose proof (leave_refused_keeps_the_group "cy" "g1" 7 (Cases.club_store []) Cases.club)
      as H.
    destruct (GroupRoutes.leave "cy" (Some "g1") 7 (Cases.club_store [])) as [db' r] eqn:E.
    destruct H as [Hdb _];
      [discriminate | reflexivity | right; eexists; split; reflexivity |].
    split; [exact Hdb|]. vm_compute in E. injection E as _ <-. reflexivity.
Defined.

(** X17.  [leave] is not undone when its second write fails: the group has
    been saved without the caller when the update of the user throws, and
    the answer is 500 'Failed to leave group'. *)
Theorem leave_half_done (caller id : string) (now : Z) (db : Db.t) (group : Group.t)
    (message : string) (fs : list (option string)) :
  id <> "" -> Db.groups db !! id = Some group -> may_leave caller group ->
  Db.faults db = None :: Some message :: fs ->
  let '(db', r) := GroupRoutes.leave caller (Some id) now db in
  r = GroupRoutes.leave_failed
  /\ Db.groups db' !! id = Some (without caller now group)
  /\ Forall (fun member => Member.user member <> caller)
            (Group.members (without caller now group)).
Proof.
  intros Hid Hg Hmay Hf. rewrite (leave_passes caller id now db group Hid Hg Hmay).
  unfold Db.save_group, Db.write. rewrite Hf. cbn. split; [reflexivity|].
  split; [apply lookup_insert_eq | exact (without_forgets caller now group)].
Qed.

(** Bob leaves the club and the second write fails: 500, and Bob is gone. *)
Lemma bob_is_gone_all_the_same :
  let '(db', r) :=
    GroupRoutes.leave "bob" (Some "g1") 7 (Cases.club_store [None; Some "write conflict"]) in
  r = GroupRoutes.leave_failed
  /\ Db.groups db' !! "g1" = Some (without "bob" 7 Cases.club).
Proof.
  pose proof (leave_half_done "bob" "g1" 7 (Cases.club_store [None; Some "write conflict"])
                Cases.club "write conflict" []) as H.
  destruct (GroupRoutes.leave _ _ _ _) as [db' r].
  destruct H as (Hr & Hg & _); [discriminate | reflexivity | | reflexivity | auto].
  split; [discriminate|]. split.
  - exists (Scenario.member_of "bob" 0). split; [|split; reflexivity].
    apply list_elem_of_In. cbn. auto.
  - intros m Hm. vm_compute in Hm. injection Hm as <-. reflexivity.
Defined.

(** ** Settling a group *)

Lemma save_transaction_holdings (x : Transaction.t) (db : Db.t) :
  holdings (fst (Db.save_transaction x db)) = holdings db.
Proof.
  unfold holdings, Db.save_transaction, Db.write.
  destruct (Db.faults db) as [|[m|] fs]; reflexivity.
Qed.

Lemma process_catch_holdings (message : string) (this : Transaction.t) (db : Db.t) :
  holdings (fst (fst (process_catch message this db))) = holdings db.
Proof.
  unfold process_catch.
  pose proof (save_transaction_holdings (Transaction.fail message this) db) as H.
  destruct (Db.save_transaction _ db) as [db' [[]|m]]; exact H.
Qed.

Lemma process_no_money_holdings (now : Z) (this : Transaction.t) (db : Db.t) :
  moves_no_money this -> holdings (fst (fst (process now this db))) = holdings db.
Proof.
  intros H. unfold process.
  pose proof (save_transaction_holdings (Transaction.with_status processing this) db) as H1.
  destruct (Db.save_transaction _ db) as [db1 [[]|m1]]; cbn [fst] in H1.
  2:{ rewrite process_catch_holdings. exact H1. }
  rewrite update_balances_no_money by exact H.
  pose proof (save_transaction_holdings
                (Transaction.complete now (Transaction.with_status processing this)) db1) as H2.
  destruct (Db.save_transaction _ db1) as [db3 [[]|m3]]; cbn [fst] in H2.
  - cbn. congruence.
  - rewrite process_catch_holdings. congruence.
Qed.

Lemma pay_creditors_holdings caller groupId newId now paymentMethod creditors :
  forall remainingOwed k settlements db,
    holdings (fst (Payments.pay_creditors caller groupId newId now paymentMethod creditors
                     remainingOwed k settlements db))
    = holdings db.
Proof.
  induction creditors as [|c rest IH]; intros remainingOwed k settlements db;
    cbn [Payments.pay_creditors]; [reflexivity|].
  destruct (PrimFloat.leb remainingOwed 0); [reflexivity|].
  match goal with |- context [Db.save_transaction ?t db] => set (t0 := t) end.
  pose proof (save_transaction_holdings t0 db) as H1.
  destruct (Db.save_transaction t0 db) as [db1 [[]|m1]]; cbn [fst] in H1; [|exact H1].
  pose proof (process_no_money_holdings now t0 db1 I) as H2.
  destruct (process now t0 db1) as [[db2 t2] [[]|m2]]; cbn [fst] in H2;
    rewrite IH; congruence.
Qed.

(** X18.  [POST /settle-group/:groupId] settles nothing: it never answers
    200, and no wallet, no group and no expense is changed by it, for every
    request, every store and whichever writes fail.  (Its transactions are
    of type settlement, which [process] moves no money for, and it throws
    before it saves the group.) *)
Theorem settle_group_settles_nothing (caller : string) (groupId : option string)
    (newId : nat -> string) (now : Z) (paymentMethod : option PaymentMethod) (db : Db.t) :
  let '(db', r) := Payments.settle_group caller groupId newId now paymentMethod db in
  code r <> 200
  /\ Db.users db' = Db.users db
  /\ Db.groups db' = Db.groups db
  /\ Db.expenses db' = Db.expenses db.
Proof.
  assert (Hsame : forall r, code r <> 200 ->
            code r <> 200 /\ Db.users db = Db.users db /\ Db.groups db = Db.groups db
            /\ Db.expenses db = Db.expenses db) by (intros; repeat split; assumption).
  unfold Payments.settle_group.
  destruct (Authorize.groupMemberAuth caller groupId db) as [[id group]|r] eqn:Hauth.
  2:{ apply Hsame.
      destruct (groupMemberAuth_codes caller groupId db r Hauth) as [H|[H|H]];
        rewrite H; discriminate. }
  destruct (find _ (Group.members group)) as [m|]; [|apply Hsame; discriminate].
  destruct (PrimFloat.ltb (Num.Math_abs (Member.balance m)) 0.01);
    [apply Hsame; discriminate|].
  destruct (PrimFloat.ltb (Member.balance m) 0); [|apply Hsame; discriminate].
  match goal with |- context [match ?c with inl _ => _ | inr r => (db, r) end] =>
    assert (Hc : c = inl tt \/ exists r, c = inr r /\ code r <> 200);
    [|destruct Hc as [-> | (r & -> & Hr)]; [|apply Hsame; exact Hr]] end.
  { destruct (Routes.is_wallet _); [|auto].
    destruct (Db.users db !! caller) as [u|]; [|right; eexists; split; [reflexivity|discriminate]].
    destruct (PrimFloat.ltb _ _); [right; eexists; split; [reflexivity|discriminate]|auto]. }
  match goal with |- context [Payments.pay_creditors ?a ?b ?c ?d ?e ?f ?g ?h ?i db] =>
    pose proof (pay_creditors_holdings a b c d e f g h i db) as H;
    destruct (Payments.pay_creditors a b c d e f g h i db) as [db1 [ss|msg]] end;
    cbn [fst] in H; unfold holdings in H; inversion H; repeat split; discriminate.
Qed.
